(** * Readiness-and-ensure engine of the model manager

    A shallow embedding of [src/model-manager/load.go] and
    [src/model-manager/probe.go], and the properties of the retrieval
    stream consumer, the ensure-all orchestrator, the deadline-bounded retry
    loop and the one-shot probe.

    Modelling conventions.
    - Go strings are byte strings: [string].
    - [time.Time] and [time.Duration] are integers counting nanoseconds
      ([Z]); [t.After(u)] is [u < t].
    - A Go [error] value is an [error] tree; [nil] is [None].
    - The backend, the clock and the cancellation context live in an
      abstract world [W]; every call that leaves the process is a handler
      of [Backend W].  The [ctx] argument of the Go functions is only ever
      handed on to the HTTP request, so its effect is part of the
      handlers' answers.
    - The body of a response is given by what reading it yields: the
      results of the successive [Decode] calls for a stream, the decoded
      names for an inventory.  The time reading takes is counted with the
      request.
    - Each operation appends the calls it makes to a trace of [Event]s.
    - The retry loop is run for a bounded number of iterations; a run that
      was given enough of them returns (section "The deadline bounds the
      loop"). *)

From Stdlib Require Import ZArith Lia Ascii.
From stdpp Require Import base decidable option list strings gmap pretty.

Local Open Scope Z_scope.
Local Open Scope string_scope.
Local Open Scope list_scope.

(** ** Errors *)

(** [ErrNew] is [errors.New] and [fmt.Errorf] without [%w]; [ErrWrap p c] is
    [fmt.Errorf(p + "%w", c)] (and the wrappers of the HTTP client);
    [ErrCanceled] is [context.Canceled]. *)
Inductive error : Type :=
| ErrNew (msg : string)
| ErrCanceled
| ErrWrap (prefix : string) (cause : error).

#[global] Instance error_eq_dec : EqDecision error.
Proof. solve_decision. Defined.

(** [err.Error()]. *)
Fixpoint error_msg (e : error) : string :=
  match e with
  | ErrNew msg => msg
  | ErrCanceled => "context canceled"
  | ErrWrap prefix cause => prefix +:+ error_msg cause
  end.

(** [errors.Is(e, context.Canceled)]. *)
Fixpoint is_canceled (e : error) : bool :=
  match e with
  | ErrNew _ => false
  | ErrCanceled => true
  | ErrWrap _ cause => is_canceled cause
  end.

(** ** Data model *)

Record pullEvent : Type := mkPullEvent {
  Status : string;
  Error : string;
  Digest : string;
  Total : Z;
  Completed : Z
}.

(** What one call of [dec.Decode(&ev)] gives: a record, or a decoding
    error other than [io.EOF].  A stream is the list of the results of the
    successive calls; [io.EOF] is the end of the list. *)
Inductive decoded : Type :=
| DecEvent (ev : pullEvent)
| DecError (e : error).

(** Response of [POST /api/pull]: the status code, the bytes of the body
    read raw, and the body read through the JSON decoder. *)
Record pullHTTP : Type := mkPullHTTP {
  pStatusCode : Z;
  pRaw : string;
  pRecords : list decoded
}.

(** Response of [GET /api/tags]: the status code and the result of decoding
    the body into [tagsResponse], as the names of its [Models] in order. *)
Record tagsHTTP : Type := mkTagsHTTP {
  tStatusCode : Z;
  tModels : error + list string
}.

(** The calls that leave the process, with their results. *)
Inductive Event : Type :=
| ENow (t : Z)
| ESleep (d : Z)
| EPing (url : string) (r : option error)
| EList (url : string) (r : error + gset string)
| EPost (url body : string) (r : error + Z)
| EDecode (r : option decoded)
| ELog (msg : string).

Record Backend (W : Type) : Type := mkBackend {
  time_Now : W -> Z * W;
  time_Sleep : Z -> W -> W;
  get_tags : string -> Z -> W -> (error + tagsHTTP) * W;
  post_pull : string -> Z -> string -> W -> (error + pullHTTP) * W
}.
Arguments time_Now {W} _ _.
Arguments time_Sleep {W} _ _ _.
Arguments get_tags {W} _ _ _ _.
Arguments post_pull {W} _ _ _ _ _.

(** ** A state-and-trace monad *)

Definition M (W A : Type) : Type := W -> A * W * list Event.

Definition ret {W A} (a : A) : M W A := fun w => (a, w, []).

Definition bind {W A B} (m : M W A) (k : A -> M W B) : M W B :=
  fun w =>
    let '(a, w1, t1) := m w in
    let '(b, w2, t2) := k a w1 in
    (b, w2, t1 ++ t2).

Definition emit {W} (e : Event) : M W unit := fun w => (tt, w, [e]).

Declare Scope go_scope.
Delimit Scope go_scope with go.
Notation "x <- m ;; k" := (bind m (fun x => k))
  (at level 100, m at next level, right associativity) : go_scope.
Notation "m ;;; k" := (bind m (fun _ => k))
  (at level 100, right associativity) : go_scope.
Local Open Scope go_scope.

Definition result_of {W A} (m : M W A) (w : W) : A := (m w).1.1.
Definition world_of {W A} (m : M W A) (w : W) : W := (m w).1.2.
Definition trace_of {W A} (m : M W A) (w : W) : list Event := (m w).2.

(** ** Constants and small helpers *)

Definition dquote : string := String "034"%char EmptyString.

Definition second : Z := 1000000000.

(** [fmt]'s [%d]. *)
Definition fmt_d (n : Z) : string := pretty n.

(** [log.Printf]. *)
Definition log_Printf {W} (msg : string) : M W unit := emit (ELog msg).

(** ** load.go *)

Section Engine.
Context {W : Type} (B : Backend W).

Definition now : M W Z :=
  fun w => let '(t, w') := time_Now B w in (t, w', [ENow t]).

Definition sleep (d : Z) : M W unit :=
  fun w => (tt, time_Sleep B d w, [ESleep d]).

Definition pingOllama (base : string) (timeout : Z) : M W (option error) :=
  fun w =>
    let url := base +:+ "/api/tags" in
    let '(resp, w') := get_tags B url timeout w in
    let r :=
      match resp with
      | inl err => Some err
      | inr resp =>
          if decide (400 <= tStatusCode resp)
          then Some (ErrNew ("ollama /api/tags status " +:+ fmt_d (tStatusCode resp)))
          else None
      end in
    (r, w', [EPing url r]).

Definition listModels (base : string) (timeout : Z) : M W (error + gset string) :=
  fun w =>
    let url := base +:+ "/api/tags" in
    let '(resp, w') := get_tags B url timeout w in
    let r :=
      match resp with
      | inl err => inl err
      | inr resp =>
          if decide (400 <= tStatusCode resp)
          then inl (ErrNew ("status " +:+ fmt_d (tStatusCode resp)))
          else match tModels resp with
               | inl err => inl err
               | inr names =>
                   inr (foldl (fun (have : gset string) name => {[name]} ∪ have) ∅ names)
               end
      end in
    (r, w', [EList url r]).

(** The decode loop of [pullModel] (lines 127-145). *)
Fixpoint pullLoop (model : string) (recs : list decoded) : M W (option error) :=
  match recs with
  | [] =>
      emit (EDecode None);;;
      ret (Some (ErrNew ("pull " +:+ model +:+ ": stream ended without success")))
  | DecError err :: _ =>
      emit (EDecode (Some (DecError err)));;;
      ret (Some (ErrWrap ("pull " +:+ model +:+ ": decode: ") err))
  | DecEvent ev :: rest =>
      emit (EDecode (Some (DecEvent ev)));;;
      if decide (Error ev = "") then
        (if decide (Status ev = "") then ret tt
         else log_Printf ("pull " +:+ model +:+ ": " +:+ Status ev));;;
        if decide (Status ev = "success") then ret None
        else pullLoop model rest
      else ret (Some (ErrNew ("pull " +:+ model +:+ ": " +:+ Error ev)))
  end.

Definition pull_body (model : string) : string :=
  "{" +:+ dquote +:+ "name" +:+ dquote +:+ ":" +:+ dquote +:+ model +:+ dquote +:+ "}".

Definition pullModel (base : string) (timeout : Z) (model : string) : M W (option error) :=
  let url := base +:+ "/api/pull" in
  let body := pull_body model in
  resp <- (fun w => let '(resp, w') := post_pull B url timeout body w in
                    (resp, w',
                     [EPost url body
                        match resp with inl e => inl e | inr r => inr (pStatusCode r) end]));;
  match resp with
  | inl err => ret (Some err)
  | inr resp =>
      if decide (Z.quot (pStatusCode resp) 100 = 2) then pullLoop model (pRecords resp)
      else
        let b := String.substring 0 (Z.to_nat 8192) (pRaw resp) in
        ret (Some (ErrNew ("pull " +:+ model +:+ " failed: status "
                           +:+ fmt_d (pStatusCode resp) +:+ ": " +:+ b)))
  end.

(** The loop of [ensureAll] that collects the missing models
    (lines 153-158): [append] at the end, in the order of [required]. *)
Definition missingOf (have : gset string) (required : list string) : list string :=
  foldl (fun missing need =>
           if decide (need ∈ have) then missing else missing ++ [need])
        [] required.

(** The loop of [ensureAll] that pulls the missing models
    (lines 159-164). *)
Fixpoint pullAll (base : string) (timeout : Z) (missing : list string)
  : M W (option error) :=
  match missing with
  | [] => ret None
  | m :: rest =>
      log_Printf ("pulling missing model: " +:+ m);;;
      r <- pullModel base timeout m;;
      match r with
      | Some err => ret (Some err)
      | None => pullAll base timeout rest
      end
  end.

Definition ensureAll (base : string) (timeout : Z) (required : list string)
  : M W (option error) :=
  r <- listModels base timeout;;
  match r with
  | inl err => ret (Some err)
  | inr have => pullAll base timeout (missingOf have required)
  end.

(** What a bounded run of the retry loop gives: the value the Go function
    returns, or nothing when the bound on the iterations was reached. *)
Inductive outcome : Type :=
| Returned (err : option error)
| OutOfFuel.

(** The [for] loop of [waitUntilReady] (lines 171-189); [fuel] bounds the
    number of iterations. *)
Fixpoint retryLoop (fuel : nat) (base : string) (reqTimeout : Z)
    (required : list string) (deadline : Z) (last : option error) : M W outcome :=
  match fuel with
  | O => ret OutOfFuel
  | S fuel =>
      t <- now;;
      if decide (deadline < t) then
        ret (Returned (Some (match last with
                             | None => ErrNew "startup timeout"
                             | Some e => e
                             end)))
      else
        r <- pingOllama base reqTimeout;;
        match r with
        | Some err =>
            sleep (2 * second);;;
            retryLoop fuel base reqTimeout required deadline
                      (Some (ErrWrap "ollama not responding: " err))
        | None =>
            r <- ensureAll base reqTimeout required;;
            match r with
            | Some err =>
                sleep (2 * second);;;
                retryLoop fuel base reqTimeout required deadline
                          (Some (ErrWrap "ensure models: " err))
            | None => ret (Returned None)
            end
        end
  end.

Definition waitUntilReady (fuel : nat) (base : string) (reqTimeout startupLimit : Z)
    (required : list string) : M W outcome :=
  t0 <- now;;
  let deadline := t0 + startupLimit in
  retryLoop fuel base reqTimeout required deadline None.

End Engine.

(** ** probe.go *)

(** The library functions [probe.go] calls whose results depend on Unicode
    tables or on the duration grammar, and the process environment. *)
Record Runtime : Type := mkRuntime {
  os_Getenv : string -> string;
  strings_TrimSpace : string -> string;
  strings_Fields : string -> list string;
  time_ParseDuration : string -> error + Z;
  strconv_Quote : string -> string
}.

Module Probe.

Section Main.
Context (R : Runtime) {W : Type} (B : Backend W).

Definition requireEnv (key : string) : error + string :=
  let v := strings_TrimSpace R (os_Getenv R key) in
  if decide (v = "") then inl (ErrNew ("required env " +:+ key +:+ " not set"))
  else inr v.

(** [strings.ReplaceAll(raw, ",", " ")]: every comma byte becomes a space. *)
Fixpoint replace_commas (raw : string) : string :=
  match raw with
  | EmptyString => EmptyString
  | String c rest =>
      String (if decide (c = ","%char) then " "%char else c) (replace_commas rest)
  end.

Definition parseModels (raw : string) : error + list string :=
  let raw := strings_TrimSpace R raw in
  let fields := strings_Fields R (replace_commas raw) in
  if decide (length fields = 0%nat) then inl (ErrNew "REQUIRED_MODELS must not be empty")
  else inr fields.

Definition mustParseDuration (val key : string) : error + Z :=
  match time_ParseDuration R val with
  | inl err =>
      inl (ErrWrap (key +:+ " invalid duration " +:+ strconv_Quote R val +:+ ": ") err)
  | inr d => inr d
  end.

(** What the process leaves behind: its exit status and the lines it wrote
    to standard error. *)
Record exit : Type := mkExit {
  exit_code : Z;
  stderr : list string
}.

(** [fmt.Fprintln(os.Stderr, err.Error()); os.Exit(1)]. *)
Definition fail (err : error) : M W exit := ret (mkExit 1 [error_msg err]).

(** The loop over [required] at the end of [main] (lines 109-114). *)
Fixpoint checkRequired (have : gset string) (required : list string) : exit :=
  match required with
  | [] => mkExit 0 []
  | need :: rest =>
      if decide (need ∈ have) then checkRequired have rest
      else mkExit 1 ["missing model: " +:+ need]
  end.

Definition main : M W exit :=
  match requireEnv "OLLAMA_BASE_URL" with
  | inl err => fail err
  | inr ollama =>
  match requireEnv "REQUIRED_MODELS" with
  | inl err => fail err
  | inr rawModels =>
  match parseModels rawModels with
  | inl err => fail err
  | inr required =>
  match requireEnv "REQUEST_TIMEOUT" with
  | inl err => fail err
  | inr reqTimeoutStr =>
  match mustParseDuration reqTimeoutStr "REQUEST_TIMEOUT" with
  | inl err => fail err
  | inr reqTimeout =>
      have <- listModels B ollama reqTimeout;;
      match have with
      | inl err => fail err
      | inr have => ret (checkRequired have required)
      end
  end end end end end.

(** The configuration the probe runs with, when the environment passes
    validation. *)
Definition config : option (string * list string * Z) :=
  match requireEnv "OLLAMA_BASE_URL", requireEnv "REQUIRED_MODELS" with
  | inr ollama, inr rawModels =>
      match parseModels rawModels, requireEnv "REQUEST_TIMEOUT" with
      | inr required, inr reqTimeoutStr =>
          match mustParseDuration reqTimeoutStr "REQUEST_TIMEOUT" with
          | inr reqTimeout => Some (ollama, required, reqTimeout)
          | inl _ => None
          end
      | _, _ => None
      end
  | _, _ => None
  end.

End Main.

End Probe.

(** ** JSON strings

    The encoding of a string as a JSON string (RFC 8259, section 7) that
    escapes what the grammar requires and nothing else: the quotation mark,
    the reverse solidus and the control characters below U+0020. *)

Definition quote_char : ascii := "034"%char.
Definition backslash_char : ascii := "092"%char.
Definition backslash : string := String backslash_char EmptyString.

Definition hex_digit (n : nat) : ascii :=
  match String.get n "0123456789abcdef" with
  | Some c => c
  | None => "0"%char
  end.

Definition json_needs_escape (c : ascii) : bool :=
  bool_decide (c = quote_char) || bool_decide (c = backslash_char)
  || (nat_of_ascii c <? 32)%nat.

Definition json_escape_char (c : ascii) : string :=
  if bool_decide (c = quote_char) then backslash +:+ dquote
  else if bool_decide (c = backslash_char) then backslash +:+ backslash
  else if (nat_of_ascii c <? 32)%nat then
    backslash +:+ "u00"
      +:+ String (hex_digit (nat_of_ascii c / 16)) (String (hex_digit (nat_of_ascii c mod 16)) "")
  else String c EmptyString.

Fixpoint json_escape (s : string) : string :=
  match s with
  | EmptyString => EmptyString
  | String c rest => json_escape_char c +:+ json_escape rest
  end.

Definition json_string (s : string) : string := dquote +:+ json_escape s +:+ dquote.

(** The JSON text of the object with the one member [name]. *)
Definition json_name_object (model : string) : string :=
  "{" +:+ json_string "name" +:+ ":" +:+ json_string model +:+ "}".

(** No character of the string needs an escape. *)
Fixpoint json_plain (s : string) : bool :=
  match s with
  | EmptyString => true
  | String c rest => negb (json_needs_escape c) && json_plain rest
  end.

(** The string holds no quotation mark and no reverse solidus. *)
Fixpoint no_quote_no_backslash (s : string) : bool :=
  match s with
  | EmptyString => true
  | String c rest =>
      negb (bool_decide (c = quote_char)) && negb (bool_decide (c = backslash_char))
      && no_quote_no_backslash rest
  end.

(** ** Reading a trace *)

(** The results of the [dec.Decode] calls of a trace, in order. *)
Definition decode_calls (t : list Event) : list (option decoded) :=
  omap (fun e => match e with EDecode r => Some r | _ => None end) t.

(** The request bodies of the [POST /api/pull] calls of a trace, in order. *)
Definition pull_calls (t : list Event) : list string :=
  omap (fun e => match e with EPost _ body _ => Some body | _ => None end) t.

(** A record of the stream that decodes, carries no error and is not the
    success marker: the decode loop goes on after it. *)
Definition quiet (d : decoded) : Prop :=
  match d with
  | DecEvent ev => Error ev = "" /\ Status ev <> "success"
  | DecError _ => False
  end.

(** A record that decodes and carries no error. *)
Definition no_error (d : decoded) : Prop :=
  match d with
  | DecEvent ev => Error ev = ""
  | DecError _ => False
  end.

(** What the decode loop appends to the trace for a record it reads and
    goes past: the [Decode] call, and the log line of a non-empty status. *)
Definition status_log (model : string) (ev : pullEvent) : list Event :=
  if decide (Status ev = "") then []
  else [ELog ("pull " +:+ model +:+ ": " +:+ Status ev)].

Definition record_trace (model : string) (d : decoded) : list Event :=
  EDecode (Some d) :: match d with
                      | DecEvent ev => status_log model ev
                      | DecError _ => []
                      end.

(** ** Sequential retrieval, as section 4.5 describes it

    [pull_run B base timeout missing w attempted r w']: starting in world
    [w], the models of [missing] are retrieved one after the other, each
    retrieval starting in the world the one before left; [attempted] are
    the models a retrieval was started for, [r] is [nil] when all
    succeeded and else the error of the first one that failed, after which
    nothing more is attempted; [w'] is the world at the end. *)
Inductive pull_run {W : Type} (B : Backend W) (base : string) (timeout : Z)
  : list string -> W -> list string -> option error -> W -> Prop :=
| pull_run_done w :
    pull_run B base timeout [] w [] None w
| pull_run_fail m rest w err :
    result_of (pullModel B base timeout m) w = Some err ->
    pull_run B base timeout (m :: rest) w [m] (Some err)
             (world_of (pullModel B base timeout m) w)
| pull_run_next m rest w attempted r w' :
    result_of (pullModel B base timeout m) w = None ->
    pull_run B base timeout rest (world_of (pullModel B base timeout m) w) attempted r w' ->
    pull_run B base timeout (m :: rest) w (m :: attempted) r w'.

(** ** Runs of the retry loop, as section 4.6 describes them

    [loop_run B base reqTimeout required deadline last t out]: [t] is the
    trace and [out] the outcome of a run of the loop that starts with
    [last] as its recorded error.  The deadline is a parameter of the
    relation: it is the same at every iteration.  Every iteration starts by
    reading the clock; past the deadline the loop returns the recorded
    error (or "startup timeout" when there is none); otherwise it probes,
    and after a failed probe or a failed ensure it records the error and
    pauses two seconds before the next iteration. *)
Inductive loop_run {W : Type} (B : Backend W) (base : string) (reqTimeout : Z)
    (required : list string) (deadline : Z)
  : option error -> list Event -> outcome -> Prop :=
| loop_run_out_of_fuel last :
    loop_run B base reqTimeout required deadline last [] OutOfFuel
| loop_run_deadline last t :
    deadline < t ->
    loop_run B base reqTimeout required deadline last [ENow t]
      (Returned (Some (match last with
                       | None => ErrNew "startup timeout"
                       | Some e => e
                       end)))
| loop_run_probe_failed last t err rest out :
    t <= deadline ->
    loop_run B base reqTimeout required deadline
      (Some (ErrWrap "ollama not responding: " err)) rest out ->
    loop_run B base reqTimeout required deadline last
      (ENow t :: EPing (base +:+ "/api/tags") (Some err) :: ESleep (2 * second) :: rest)
      out
| loop_run_ensure_failed last t w err rest out :
    t <= deadline ->
    result_of (ensureAll B base reqTimeout required) w = Some err ->
    loop_run B base reqTimeout required deadline
      (Some (ErrWrap "ensure models: " err)) rest out ->
    loop_run B base reqTimeout required deadline last
      (ENow t :: EPing (base +:+ "/api/tags") None
         :: trace_of (ensureAll B base reqTimeout required) w
         ++ ESleep (2 * second) :: rest)
      out
| loop_run_ready last t w :
    t <= deadline ->
    result_of (ensureAll B base reqTimeout required) w = None ->
    loop_run B base reqTimeout required deadline last
      (ENow t :: EPing (base +:+ "/api/tags") None
         :: trace_of (ensureAll B base reqTimeout required) w)
      (Returned None).

(** ** The state machine of section 4.6, read on the trace

    [Checking] is the deadline check that opens every iteration,
    [Probing] the liveness probe, [Pausing] the backoff after a failed
    probe, [Inventory] and [Ensuring] the ensure attempt (its inventory
    query, then its retrievals), [Failed] the state after the deadline.
    The only way into [Inventory] is a successful probe, and the only way
    on from a pause is the deadline check. *)
Inductive phase : Type :=
| Checking | Probing | Pausing | Inventory | Ensuring | Failed.

#[global] Instance phase_eq_dec : EqDecision phase.
Proof. solve_decision. Defined.

Definition phase_step (deadline : Z) (p : phase) (e : Event) : option phase :=
  match p, e with
  | Checking, ENow t => Some (if decide (deadline < t) then Failed else Probing)
  | Probing, EPing _ (Some _) => Some Pausing
  | Probing, EPing _ None => Some Inventory
  | Pausing, ESleep d => if decide (d = 2 * second) then Some Checking else None
  | Inventory, EList _ _ => Some Ensuring
  | Ensuring, EPost _ _ _ => Some Ensuring
  | Ensuring, EDecode _ => Some Ensuring
  | Ensuring, ELog _ => Some Ensuring
  | Ensuring, ESleep d => if decide (d = 2 * second) then Some Checking else None
  | _, _ => None
  end.

Definition phases (deadline : Z) (start : option phase) (t : list Event) : option phase :=
  foldl (fun st e => match st with
                     | Some p => phase_step deadline p e
                     | None => None
                     end) start t.

(** The phase a run may stop in, by its outcome: [ready] is a return of
    [nil] out of an ensure attempt, [failed] a return of an error after the
    deadline; a bounded run that was cut stops at the head of an
    iteration. *)
Definition stops_in (p : phase) (out : outcome) : Prop :=
  match out with
  | Returned None => p = Ensuring
  | Returned (Some _) => p = Failed
  | OutOfFuel => p = Checking
  end.

(** The events of a retrieval, and the events of an ensure attempt (its
    inventory query and its retrievals). *)
Definition is_pull_event (e : Event) : bool :=
  match e with
  | EPost _ _ _ | EDecode _ | ELog _ => true
  | _ => false
  end.

Definition is_ensure_event (e : Event) : bool :=
  match e with
  | EList _ _ => true
  | _ => is_pull_event e
  end.

(** ** A scripted backend

    A concrete world for running the engine: a clock that only [time.Sleep]
    advances, and the answers of the backend to the successive requests.
    When the answers run out the connection is refused. *)

Record script : Type := mkScript {
  clock : Z;
  tags_replies : list (error + tagsHTTP);
  pull_replies : list (error + pullHTTP)
}.

Definition scripted : Backend script := {|
  time_Now w := (clock w, w);
  time_Sleep d w := mkScript (clock w + d) (tags_replies w) (pull_replies w);
  get_tags _ _ w :=
    match tags_replies w with
    | [] => (inl (ErrNew "connection refused"), w)
    | r :: rs => (r, mkScript (clock w) rs (pull_replies w))
    end;
  post_pull _ _ _ w :=
    match pull_replies w with
    | [] => (inl (ErrNew "connection refused"), w)
    | r :: rs => (r, mkScript (clock w) (tags_replies w) rs)
    end
|}.

Definition event (status err : string) : decoded :=
  DecEvent (mkPullEvent status err "" 0 0).

Definition tags_ok (names : list string) : error + tagsHTTP :=
  inr (mkTagsHTTP 200 (inr names)).

Definition pull_ok (recs : list decoded) : error + pullHTTP :=
  inr (mkPullHTTP 200 "" recs).

(** Required [a; b; c], installed [a]; the pull of [b] succeeds and the
    pull of [c] is refused. *)
Definition ensure_world : script :=
  mkScript 0 [tags_ok ["a"]]
    [pull_ok [event "pulling" ""; event "success" ""];
     inr (mkPullHTTP 500 "no such model" [])].

(** Both required models installed: the probe and the inventory query are
    answered with [a] and [b]. *)
Definition ready_world : script :=
  mkScript 0 [tags_ok ["a"; "b"]; tags_ok ["a"; "b"]] [].

(** Two ensure cycles: the first inventory holds [a] only and the pull of
    [b] succeeds; the second inventory holds both. *)
Definition two_cycles_world : script :=
  mkScript 0 [tags_ok ["a"]; tags_ok ["a"; "b"]]
    [pull_ok [event "pulling" ""; event "verifying" ""; event "success" ""]].

(** The example of section 8: the backend answers the probe, reports [a],
    and streams pulling, verifying, success for [b]. *)
Definition example_world : script :=
  mkScript 0 [tags_ok ["a"]; tags_ok ["a"]]
    [pull_ok [event "pulling" ""; event "verifying" ""; event "success" ""]].

(** The error of the HTTP client when the request context is cancelled. *)
Definition canceled_request : error :=
  ErrWrap ("Get " +:+ dquote +:+ "http://ollama:11434/api/tags" +:+ dquote +:+ ": ")
          ErrCanceled.

(** The termination signal has arrived before the first probe: every
    request fails with the cancellation error. *)
Definition canceled_world : script :=
  mkScript 0 [inl canceled_request; inl canceled_request; inl canceled_request] [].

(** ** A runtime for running the probe

    On ASCII input [strings.TrimSpace] and [strings.Fields] cut at the six
    ASCII white space characters; the durations understood here are a
    whole number of seconds, written in decimal and followed by [s]. *)

Definition is_space (c : ascii) : bool :=
  bool_decide (nat_of_ascii c ∈ [9; 10; 11; 12; 13; 32]%nat).

Fixpoint drop_space (s : list ascii) : list ascii :=
  match s with
  | [] => []
  | c :: rest => if is_space c then drop_space rest else s
  end.

Definition trim_space (s : string) : string :=
  String.string_of_list_ascii
    (rev (drop_space (rev (drop_space (String.list_ascii_of_string s))))).

Fixpoint fields_from (cur : list ascii) (s : list ascii) : list string :=
  match s with
  | [] => match cur with
          | [] => []
          | _ => [String.string_of_list_ascii (rev cur)]
          end
  | c :: rest =>
      if is_space c then
        match cur with
        | [] => fields_from [] rest
        | _ => String.string_of_list_ascii (rev cur) :: fields_from [] rest
        end
      else fields_from (c :: cur) rest
  end.

Fixpoint seconds_from (acc : Z) (some_digit : bool) (s : list ascii) : error + Z :=
  match s with
  | [c] =>
      if bool_decide (c = "s"%char) && some_digit then inr (acc * second)
      else inl (ErrNew "time: invalid duration")
  | c :: rest =>
      let n := nat_of_ascii c in
      if bool_decide (48 <= n <= 57)%nat
      then seconds_from (10 * acc + (Z.of_nat n - 48)) true rest
      else inl (ErrNew "time: invalid duration")
  | [] => inl (ErrNew "time: invalid duration")
  end.

Definition ascii_runtime (env : list (string * string)) : Runtime := {|
  os_Getenv key :=
    match list_find (fun kv => kv.1 = key) env with
    | Some (_, kv) => kv.2
    | None => ""
    end;
  strings_TrimSpace := trim_space;
  strings_Fields s := fields_from [] (String.list_ascii_of_string s);
  time_ParseDuration s := seconds_from 0 false (String.list_ascii_of_string s);
  strconv_Quote s := dquote +:+ s +:+ dquote
|}.

Definition probe_env : list (string * string) :=
  [("OLLAMA_BASE_URL", "http://ollama:11434");
   ("REQUIRED_MODELS", " a, b ");
   ("REQUEST_TIMEOUT", "30s")].

(** ** The entry point of load.go *)

Module Load.

Section Main.
Context (R : Runtime) {W : Type} (B : Backend W).

(** [requireEnv] and [mustParseDuration] of [load.go] are the functions of
    the same names of [probe.go], line for line. *)
Definition requireEnv (key : string) : error + string := Probe.requireEnv R key.

Definition mustParseDuration (val key : string) : error + Z :=
  Probe.mustParseDuration R val key.

(** The loop of [parseModels] (lines 48-54): the fields, trimmed, the empty
    ones left out. *)
Definition keepNonEmpty (fields : list string) : list string :=
  foldl (fun out f =>
           let f := strings_TrimSpace R f in
           if decide (f = "") then out else out ++ [f])
        [] fields.

Definition parseModels (raw : string) : error + list string :=
  let raw := strings_TrimSpace R raw in
  if decide (raw = "") then inl (ErrNew "REQUIRED_MODELS must not be empty")
  else
    let fields := strings_Fields R (Probe.replace_commas raw) in
    let out := keepNonEmpty fields in
    if decide (length out = 0%nat)
    then inl (ErrNew "REQUIRED_MODELS parsed to zero entries")
    else inr out.

(** How [main] ends: [log.Fatal] (the line logged, exit status 1), or the
    wait on [ctx.Done()] it blocks in once the models are present; [Cut]
    when the bound on the iterations of the retry loop was reached. *)
Inductive ending : Type :=
| Fatal (msg : string)
| Blocked
| Cut.

Definition main (fuel : nat) : M W ending :=
  match requireEnv "OLLAMA_BASE_URL" with
  | inl err => ret (Fatal (error_msg err))
  | inr ollama =>
  match requireEnv "REQUIRED_MODELS" with
  | inl err => ret (Fatal (error_msg err))
  | inr rawModels =>
  match parseModels rawModels with
  | inl err => ret (Fatal (error_msg err))
  | inr required =>
  match requireEnv "REQUEST_TIMEOUT" with
  | inl err => ret (Fatal (error_msg err))
  | inr reqTimeoutStr =>
  match requireEnv "STARTUP_TIMEOUT" with
  | inl err => ret (Fatal (error_msg err))
  | inr startupTimeoutStr =>
  match mustParseDuration reqTimeoutStr "REQUEST_TIMEOUT" with
  | inl err => ret (Fatal (error_msg err))
  | inr reqTimeout =>
  match mustParseDuration startupTimeoutStr "STARTUP_TIMEOUT" with
  | inl err => ret (Fatal (error_msg err))
  | inr startupLimit =>
      r <- waitUntilReady B fuel ollama reqTimeout startupLimit required;;
      match r with
      | Returned (Some err) => ret (Fatal ("startup failed: " +:+ error_msg err))
      | Returned None =>
          log_Printf "all required models present";;;
          ret Blocked
      | OutOfFuel => ret Cut
      end
  end end end end end end end.

End Main.

End Load.

(** ** More readings of a trace *)

(** The probes of a trace, with their results. *)
Definition probe_calls (t : list Event) : list (option error) :=
  omap (fun e => match e with EPing _ r => Some r | _ => None end) t.

(** The lines logged. *)
Definition log_lines (t : list Event) : list string :=
  omap (fun e => match e with ELog msg => Some msg | _ => None end) t.

(** The pauses of a trace, with their lengths. *)
Definition sleep_calls (t : list Event) : list Z :=
  omap (fun e => match e with ESleep d => Some d | _ => None end) t.

(** One when the run returned [nil], else zero. *)
Definition ready_count (out : outcome) : nat :=
  match out with
  | Returned None => 1
  | _ => 0
  end.

(** The lines the engine logs start with the letter p ("pulling missing
    model: ...", "pull ...: ..."). *)
Definition engine_line (msg : string) : Prop := exists rest, msg = String "p" rest.


Definition gate_env : list (string * string) :=
  [("OLLAMA_BASE_URL", "http://ollama:11434");
   ("REQUIRED_MODELS", "a,b");
   ("REQUEST_TIMEOUT", "30s");
   ("STARTUP_TIMEOUT", "60s")].

(* ================================================================== *)
(** * Properties *)

Local Open Scope go_scope.

Section PullModel.
Context {W : Type} (B : Backend W).

Implicit Types (w : W) (model base : string) (ev : pullEvent).

Lemma pullLoop_world model recs w :
  (pullLoop model recs w).1.2 = w.
Proof.
  induction recs as [|[ev|e] recs IH]; simpl; try reflexivity.
  unfold bind; simpl.
  destruct (decide (Error ev = "")); simpl; [|reflexivity].
  destruct (decide (Status ev = "")); simpl;
    destruct (decide (Status ev = "success")); simpl; try reflexivity;
    destruct (pullLoop model recs w) as [[r w1] t1] eqn:E; simpl in *; congruence.
Qed.

Lemma pullLoop_eof model w :
  pullLoop model [] w
  = (Some (ErrNew ("pull " +:+ model +:+ ": stream ended without success")), w,
     [EDecode None]).
Proof. reflexivity. Qed.

Lemma pullLoop_decode_error model e rest w :
  pullLoop model (DecError e :: rest) w
  = (Some (ErrWrap ("pull " +:+ model +:+ ": decode: ") e), w,
     [EDecode (Some (DecError e))]).
Proof. reflexivity. Qed.

Lemma pullLoop_error model ev rest w :
  Error ev <> "" ->
  pullLoop model (DecEvent ev :: rest) w
  = (Some (ErrNew ("pull " +:+ model +:+ ": " +:+ Error ev)), w,
     [EDecode (Some (DecEvent ev))]).
Proof.
  intros Herr. simpl. unfold bind; simpl.
  destruct (decide (Error ev = "")); [contradiction|reflexivity].
Qed.

Lemma pullLoop_success model ev rest w :
  Error ev = "" -> Status ev = "success" ->
  pullLoop model (DecEvent ev :: rest) w
  = (None, w, record_trace model (DecEvent ev)).
Proof.
  intros Herr Hst. simpl. unfold bind, record_trace, status_log; simpl.
  destruct (decide (Error ev = "")); [|contradiction].
  destruct (decide (Status ev = "success")); [|contradiction].
  destruct (decide (Status ev = "")); reflexivity.
Qed.

Lemma pullLoop_quiet model d rest w :
  quiet d ->
  pullLoop model (d :: rest) w
  = ((pullLoop model rest w).1.1, w,
     record_trace model d ++ (pullLoop model rest w).2).
Proof.
  destruct d as [ev|e]; simpl; [|tauto]. intros [Herr Hst].
  pose proof (pullLoop_world model rest w) as Hw.
  unfold bind, record_trace, status_log; simpl.
  destruct (decide (Error ev = "")); [|contradiction].
  destruct (decide (Status ev = "success")); [contradiction|].
  destruct (decide (Status ev = "")); simpl;
    destruct (pullLoop model rest w) as [[r w1] t1]; simpl in *; subst w1;
    reflexivity.
Qed.

Lemma pullLoop_quiet_app model pre rest w :
  Forall quiet pre ->
  pullLoop model (pre ++ rest) w
  = ((pullLoop model rest w).1.1, w,
     concat (record_trace model <$> pre) ++ (pullLoop model rest w).2).
Proof.
  induction 1 as [|d pre Hd Hpre IH]; simpl.
  - pose proof (pullLoop_world model rest w).
    destruct (pullLoop model rest w) as [[r w1] t1]; simpl in *; congruence.
  - change (pullLoop model (d :: pre ++ rest) w = ((pullLoop model rest w).1.1, w,
      (record_trace model d ++ concat (record_trace model <$> pre))
        ++ (pullLoop model rest w).2)).
    rewrite pullLoop_quiet by assumption. rewrite IH. simpl.
    rewrite <- app_assoc. reflexivity.
Qed.

Lemma pullLoop_all_quiet model recs w :
  Forall quiet recs ->
  pullLoop model recs w
  = (Some (ErrNew ("pull " +:+ model +:+ ": stream ended without success")), w,
     concat (record_trace model <$> recs) ++ [EDecode None]).
Proof.
  intros Hq. pose proof (pullLoop_quiet_app model recs [] w Hq) as H.
  rewrite app_nil_r, pullLoop_eof in H. exact H.
Qed.

Lemma decode_calls_app t1 t2 :
  decode_calls (t1 ++ t2) = decode_calls t1 ++ decode_calls t2.
Proof. apply omap_app. Qed.

Lemma decode_calls_post url body r t :
  decode_calls (EPost url body r :: t) = decode_calls t.
Proof. reflexivity. Qed.

Lemma decode_calls_record model d :
  decode_calls (record_trace model d) = [Some d].
Proof.
  destruct d as [ev|e]; [|reflexivity].
  unfold record_trace, status_log. destruct (decide (Status ev = "")); reflexivity.
Qed.

Lemma decode_calls_records model pre :
  decode_calls (concat (record_trace model <$> pre)) = Some <$> pre.
Proof.
  induction pre as [|d pre IH]; [reflexivity|].
  rewrite !fmap_cons. cbn [concat].
  rewrite decode_calls_app, decode_calls_record, IH. reflexivity.
Qed.

(** [pullModel] once the request was answered with a 2xx status. *)
Lemma pullModel_streaming base timeout model w w' resp :
  post_pull B (base +:+ "/api/pull") timeout (pull_body model) w = (inr resp, w') ->
  Z.quot (pStatusCode resp) 100 = 2 ->
  pullModel B base timeout model w
  = ((pullLoop model (pRecords resp) w').1.1, w',
     EPost (base +:+ "/api/pull") (pull_body model) (inr (pStatusCode resp))
       :: (pullLoop model (pRecords resp) w').2).
Proof.
  intros Hpost H2xx. unfold pullModel, bind. rewrite Hpost.
  destruct (decide (Z.quot (pStatusCode resp) 100 = 2)); [|contradiction].
  pose proof (pullLoop_world model (pRecords resp) w').
  destruct (pullLoop model (pRecords resp) w') as [[r w1] t1]; simpl in *.
  congruence.
Qed.

End PullModel.

(** ** The retrieval stream consumer *)

Section RetrievalStream.
Context {W : Type} (B : Backend W).
Implicit Types (w : W) (model base : string) (ev : pullEvent).

Lemma pullLoop_reaches_success model pre ev rest w :
  Forall no_error pre -> Status ev = "success" -> Error ev = "" ->
  (pullLoop model (pre ++ DecEvent ev :: rest) w).1.1 = None /\
  exists k : nat,
    (k <= length pre)%nat /\
    decode_calls (pullLoop model (pre ++ DecEvent ev :: rest) w).2
    = Some <$> take (S k) (pre ++ [DecEvent ev]) /\
    (Forall quiet pre -> k = length pre).
Proof.
  intros Hpre Hst Herr. induction Hpre as [|d pre Hd Hpre IH].
  - simpl app. rewrite pullLoop_success by assumption. split; [reflexivity|].
    exists 0%nat. split; [simpl; lia|]. split; [|reflexivity].
    cbn [snd]. rewrite decode_calls_record. reflexivity.
  - destruct d as [e0|e0]; [|contradiction]. simpl in Hd.
    destruct (decide (Status e0 = "success")) as [Hs|Hs].
    + simpl app. rewrite pullLoop_success by assumption. split; [reflexivity|].
      exists 0%nat. split; [simpl; lia|]. split.
      * cbn [snd]. rewrite decode_calls_record. reflexivity.
      * intros Hq. inversion Hq as [|? ? Hqd _]; subst.
        destruct Hqd as [_ Hne]. contradiction.
    + destruct IH as [Hres [k [Hk [Hdec Hlen]]]].
      simpl app. rewrite pullLoop_quiet by (split; assumption).
      split; [exact Hres|].
      exists (S k). split; [simpl; lia|]. split.
      * cbn [snd]. rewrite decode_calls_app, decode_calls_record, Hdec. reflexivity.
      * intros Hq. inversion Hq; subst. simpl. f_equal. auto.
Qed.

(** C1 (as amended).  When the pull request is answered with a 2xx status
    and the stream holds a record with status ["success"] and an empty
    error field, all records before it decoding with an empty error
    field, [pullModel] returns [nil]; it calls [Decode] at most once per
    record up to that one and never beyond it (exactly once per record
    when that record is the first with status ["success"]), whatever
    follows in the stream. *)
Theorem pullModel_success_stops base timeout model w w' resp pre ev rest :
  post_pull B (base +:+ "/api/pull") timeout (pull_body model) w = (inr resp, w') ->
  Z.quot (pStatusCode resp) 100 = 2 ->
  pRecords resp = pre ++ DecEvent ev :: rest ->
  Forall no_error pre ->
  Status ev = "success" ->
  Error ev = "" ->
  result_of (pullModel B base timeout model) w = None /\
  world_of (pullModel B base timeout model) w = w' /\
  exists k : nat,
    (k <= length pre)%nat /\
    decode_calls (trace_of (pullModel B base timeout model) w)
    = Some <$> take (S k) (pre ++ [DecEvent ev]) /\
    (Forall quiet pre -> k = length pre).
Proof.
  intros Hpost H2xx Hrecs Hpre Hst Herr.
  unfold result_of, world_of, trace_of.
  rewrite (pullModel_streaming B base timeout model w w' resp Hpost H2xx), Hrecs.
  destruct (pullLoop_reaches_success model pre ev rest w' Hpre Hst Herr)
    as [Hres [k [Hk [Hdec Hlen]]]].
  cbn [fst snd]. split; [exact Hres|]. split; [reflexivity|].
  exists k. split; [exact Hk|]. split; [|exact Hlen].
  exact Hdec.
Qed.

(** C2.  When the pull request is answered with a 2xx status and every
    record of the stream decodes, carries no error and has a status other
    than ["success"], [pullModel] reads the stream to its end and returns
    the error "stream ended without success". *)
Theorem pullModel_eof_is_failure base timeout model w w' resp :
  post_pull B (base +:+ "/api/pull") timeout (pull_body model) w = (inr resp, w') ->
  Z.quot (pStatusCode resp) 100 = 2 ->
  Forall quiet (pRecords resp) ->
  result_of (pullModel B base timeout model) w
  = Some (ErrNew ("pull " +:+ model +:+ ": stream ended without success")) /\
  decode_calls (trace_of (pullModel B base timeout model) w)
  = (Some <$> pRecords resp) ++ [None].
Proof.
  intros Hpost H2xx Hq. unfold result_of, trace_of.
  rewrite (pullModel_streaming B base timeout model w w' resp Hpost H2xx).
  rewrite pullLoop_all_quiet by assumption.
  cbn [fst snd]. split; [reflexivity|].
  rewrite decode_calls_post, decode_calls_app, decode_calls_records. reflexivity.
Qed.

(** C3.  When the pull request is answered with a 2xx status and the
    stream holds a record with a non-empty error field, all records
    before it decoding with an empty error field and a status other than
    ["success"], [pullModel] returns the error built from that message,
    whatever the status of that record and whatever follows it, and reads
    nothing after it. *)
Theorem pullModel_error_event_fails base timeout model w w' resp pre ev rest :
  post_pull B (base +:+ "/api/pull") timeout (pull_body model) w = (inr resp, w') ->
  Z.quot (pStatusCode resp) 100 = 2 ->
  pRecords resp = pre ++ DecEvent ev :: rest ->
  Forall quiet pre ->
  Error ev <> "" ->
  result_of (pullModel B base timeout model) w
  = Some (ErrNew ("pull " +:+ model +:+ ": " +:+ Error ev)) /\
  decode_calls (trace_of (pullModel B base timeout model) w)
  = Some <$> (pre ++ [DecEvent ev]).
Proof.
  intros Hpost H2xx Hrecs Hq Herr. unfold result_of, trace_of.
  rewrite (pullModel_streaming B base timeout model w w' resp Hpost H2xx), Hrecs.
  rewrite pullLoop_quiet_app by assumption.
  rewrite (pullLoop_error model ev rest w' Herr).
  cbn [fst snd]. split; [reflexivity|].
  rewrite decode_calls_post, decode_calls_app, decode_calls_records, fmap_app.
  reflexivity.
Qed.

End RetrievalStream.

(** ** Runs of the retrieval stream consumer on the scripted backend *)

Lemma pullModel_success_stops_witness :
  result_of (pullModel scripted "http://ollama:11434" (30 * second) "b")
    (mkScript 0 [] [pull_ok [event "pulling" ""; event "success" ""; event "late" "x"]])
  = None.
Proof.
  refine (proj1 (pullModel_success_stops scripted "http://ollama:11434" (30 * second) "b"
            (mkScript 0 [] [pull_ok [event "pulling" ""; event "success" "";
                                     event "late" "x"]])
            (mkScript 0 [] [])
            (mkPullHTTP 200 "" [event "pulling" ""; event "success" ""; event "late" "x"])
            [event "pulling" ""] (mkPullEvent "success" "" "" 0 0) [event "late" "x"]
            _ _ _ _ _ _)).
  - reflexivity.
  - reflexivity.
  - reflexivity.
  - repeat constructor.
  - reflexivity.
  - reflexivity.
Defined.

(** C1 as stated fails: a record with status ["success"] that also carries
    an error message makes [pullModel] fail, although no earlier record
    carries an error. *)
Lemma pullModel_success_with_error_fails :
  let ev := mkPullEvent "success" "disk full" "" 0 0 in
  let w := mkScript 0 [] [pull_ok [DecEvent ev]] in
  Status ev = "success" /\
  Forall no_error [] /\
  result_of (pullModel scripted "http://ollama:11434" (30 * second) "b") w
  = Some (ErrNew "pull b: disk full").
Proof. repeat split. constructor. Qed.

Lemma pullModel_eof_is_failure_witness :
  result_of (pullModel scripted "http://ollama:11434" (30 * second) "b")
    (mkScript 0 [] [pull_ok [event "pulling" ""; event "verifying" ""]])
  = Some (ErrNew "pull b: stream ended without success").
Proof.
  refine (proj1 (pullModel_eof_is_failure scripted "http://ollama:11434" (30 * second) "b"
            (mkScript 0 [] [pull_ok [event "pulling" ""; event "verifying" ""]])
            (mkScript 0 [] [])
            (mkPullHTTP 200 "" [event "pulling" ""; event "verifying" ""])
            _ _ _)).
  - reflexivity.
  - reflexivity.
  - repeat constructor; discriminate.
Defined.

Lemma pullModel_error_event_fails_witness :
  result_of (pullModel scripted "http://ollama:11434" (30 * second) "b")
    (mkScript 0 [] [pull_ok [event "pulling" ""; event "success" "no space";
                             event "success" ""]])
  = Some (ErrNew "pull b: no space").
Proof.
  refine (proj1 (pullModel_error_event_fails scripted "http://ollama:11434" (30 * second) "b"
            (mkScript 0 [] [pull_ok [event "pulling" ""; event "success" "no space";
                                     event "success" ""]])
            (mkScript 0 [] [])
            (mkPullHTTP 200 "" [event "pulling" ""; event "success" "no space";
                                event "success" ""])
            [event "pulling" ""] (mkPullEvent "success" "no space" "" 0 0)
            [event "success" ""] _ _ _ _ _)).
  - reflexivity.
  - reflexivity.
  - reflexivity.
  - repeat constructor; discriminate.
  - discriminate.
Defined.

(** ** The ensure-all orchestrator *)

Section EnsureAll.
Context {W : Type} (B : Backend W).
Implicit Types (w : W) (model base : string) (have : gset string).

Lemma missingOf_acc have required acc :
  foldl (fun missing need =>
           if decide (need ∈ have) then missing else missing ++ [need])
        acc required
  = acc ++ filter (fun need => need ∉ have) required.
Proof.
  revert acc. induction required as [|need required IH]; intros acc; simpl.
  - rewrite app_nil_r. reflexivity.
  - rewrite IH. destruct (decide (need ∈ have)) as [Hin|Hout].
    + rewrite filter_cons_False by (intros Hn; exact (Hn Hin)). reflexivity.
    + rewrite filter_cons_True by assumption. rewrite <- app_assoc. reflexivity.
Qed.

Lemma missingOf_filter have required :
  missingOf have required = filter (fun need => need ∉ have) required.
Proof. unfold missingOf. rewrite missingOf_acc. reflexivity. Qed.

Lemma pull_calls_app t1 t2 :
  pull_calls (t1 ++ t2) = pull_calls t1 ++ pull_calls t2.
Proof. apply omap_app. Qed.

Lemma pullLoop_pull_calls model recs w :
  pull_calls (pullLoop model recs w).2 = [].
Proof.
  induction recs as [|[ev|e] recs IH]; try reflexivity.
  destruct (decide (Error ev = "")) as [He|He].
  - destruct (decide (Status ev = "success")) as [Hs|Hs].
    + rewrite pullLoop_success by assumption.
      unfold record_trace, status_log. simpl.
      destruct (decide (Status ev = "")); reflexivity.
    + rewrite pullLoop_quiet by (split; assumption). cbn [snd].
      rewrite pull_calls_app, IH.
      unfold record_trace, status_log. simpl.
      destruct (decide (Status ev = "")); reflexivity.
  - rewrite pullLoop_error by assumption. reflexivity.
Qed.

(** One call of [pullModel] sends exactly one request. *)
Lemma pullModel_pull_calls base timeout model w :
  pull_calls (trace_of (pullModel B base timeout model) w) = [pull_body model].
Proof.
  unfold trace_of, pullModel, bind.
  destruct (post_pull B (base +:+ "/api/pull") timeout (pull_body model) w)
    as [[err|resp] w1]; [reflexivity|].
  destruct (decide (Z.quot (pStatusCode resp) 100 = 2)); [|reflexivity].
  pose proof (pullLoop_pull_calls model (pRecords resp) w1) as Hl.
  destruct (pullLoop model (pRecords resp) w1) as [[r w2] t2]. simpl in *.
  rewrite Hl. reflexivity.
Qed.

Lemma listModels_trace base timeout w :
  (listModels B base timeout w).2
  = [EList (base +:+ "/api/tags") (listModels B base timeout w).1.1].
Proof.
  unfold listModels.
  destruct (get_tags B (base +:+ "/api/tags") timeout w) as [resp w1]. reflexivity.
Qed.

Lemma pullAll_run base timeout missing w :
  exists attempted,
    pull_run B base timeout missing w attempted
             (result_of (pullAll B base timeout missing) w)
             (world_of (pullAll B base timeout missing) w) /\
    pull_calls (trace_of (pullAll B base timeout missing) w) = pull_body <$> attempted.
Proof.
  revert w. induction missing as [|m rest IH]; intros w.
  - exists []. split; [constructor|reflexivity].
  - pose proof (pullModel_pull_calls base timeout m w) as Hcalls.
    unfold result_of, world_of, trace_of in *. simpl. unfold bind. simpl.
    destruct (pullModel B base timeout m w) as [[[err|] w1] t1] eqn:Hm.
    + exists [m]. simpl in *. split.
      * replace w1 with (world_of (pullModel B base timeout m) w)
          by (unfold world_of; rewrite Hm; reflexivity).
        apply pull_run_fail. unfold result_of. rewrite Hm. reflexivity.
      * rewrite app_nil_r.
        change (pull_calls (ELog ("pulling missing model: " +:+ m) :: t1))
          with (pull_calls t1).
        rewrite Hcalls. reflexivity.
    + destruct (IH w1) as [attempted [Hrun Hpc]].
      destruct (pullAll B base timeout rest w1) as [[r w2] t2]. simpl in *.
      exists (m :: attempted). split.
      * apply pull_run_next; unfold result_of, world_of; rewrite Hm; simpl;
          [reflexivity|exact Hrun].
      * change (pull_calls (ELog ("pulling missing model: " +:+ m) :: t1 ++ t2))
          with (pull_calls (t1 ++ t2)).
        rewrite pull_calls_app, Hcalls, Hpc. reflexivity.
Qed.

(** What a sequential retrieval attempts: a prefix of the list, all of it
    when it succeeds, and when it fails nothing after the model that
    failed. *)
Lemma pull_run_shape base timeout missing w attempted r w' :
  pull_run B base timeout missing w attempted r w' ->
  attempted `prefix_of` missing /\
  match r with
  | None => attempted = missing
  | Some err =>
      exists done m w_m,
        attempted = done ++ [m] /\
        result_of (pullModel B base timeout m) w_m = Some err
  end.
Proof.
  induction 1 as [w|m rest w err Hm|m rest w attempted r w' Hm Hrun [Hpre Hr]].
  - split; [reflexivity|reflexivity].
  - split; [exists rest; reflexivity|].
    exists [], m, w. split; [reflexivity|exact Hm].
  - split; [apply prefix_cons; exact Hpre|].
    destruct r as [err|].
    + destruct Hr as [done [m' [w_m [Hatt Hfail]]]].
      exists (m :: done), m', w_m. rewrite Hatt. split; [reflexivity|exact Hfail].
    + rewrite Hr. reflexivity.
Qed.

(** C4.  When the inventory query gives the set [have], the list of
    missing models [ensureAll] builds is the required list with the
    members of [have] removed, in order; [ensureAll] then retrieves the
    missing models one after the other in that order, sends exactly one
    pull request for each model it starts, and stops at the first
    retrieval that fails, returning its error: the models attempted are a
    prefix of the missing ones, all of them when [nil] is returned, and an
    error returned is the error of the retrieval attempted last. *)
Theorem ensureAll_pulls_missing_in_order base timeout required w have :
  result_of (listModels B base timeout) w = inr have ->
  let missing := filter (fun need => need ∉ have) required in
  missingOf have required = missing /\
  exists attempted,
    pull_run B base timeout missing
             (world_of (listModels B base timeout) w) attempted
             (result_of (ensureAll B base timeout required) w)
             (world_of (ensureAll B base timeout required) w) /\
    pull_calls (trace_of (ensureAll B base timeout required) w)
    = pull_body <$> attempted /\
    attempted `prefix_of` missing /\
    (result_of (ensureAll B base timeout required) w = None -> attempted = missing) /\
    (forall err,
        result_of (ensureAll B base timeout required) w = Some err ->
        exists done m w_m,
          attempted = done ++ [m] /\
          result_of (pullModel B base timeout m) w_m = Some err).
Proof.
  intros Hlist missing. split; [apply missingOf_filter|].
  unfold result_of, world_of, trace_of in *. unfold ensureAll, bind.
  pose proof (listModels_trace base timeout w) as Htr.
  destruct (listModels B base timeout w) as [[r w1] t1]. simpl in *. subst r t1.
  rewrite missingOf_filter. fold missing.
  destruct (pullAll_run base timeout missing w1) as [attempted [Hrun Hpc]].
  unfold result_of, world_of, trace_of in *.
  destruct (pullAll B base timeout missing w1) as [[r w2] t2]. simpl in *.
  exists attempted. split; [exact Hrun|]. split; [exact Hpc|].
  destruct (pull_run_shape base timeout missing w1 attempted r w2 Hrun) as [Hpre Hr].
  split; [exact Hpre|]. split.
  - intros ->. exact Hr.
  - intros err ->. exact Hr.
Qed.

End EnsureAll.

(** ** Runs of the orchestrator on the scripted backend *)

Lemma ensureAll_pulls_missing_in_order_witness :
  missingOf ({["a"]} ∪ ∅) ["a"; "b"; "c"]
  = filter (fun need => need ∉ ({["a"]} ∪ ∅ : gset string)) ["a"; "b"; "c"].
Proof.
  exact (proj1 (ensureAll_pulls_missing_in_order scripted "http://ollama:11434"
                  (30 * second) ["a"; "b"; "c"] ensure_world ({["a"]} ∪ ∅) eq_refl)).
Defined.

Example ensureAll_run :
  result_of (ensureAll scripted "http://ollama:11434" (30 * second) ["a"; "b"; "c"])
    ensure_world
  = Some (ErrNew "pull c failed: status 500: no such model") /\
  pull_calls (trace_of (ensureAll scripted "http://ollama:11434" (30 * second)
                          ["a"; "b"; "c"]) ensure_world)
  = [pull_body "b"; pull_body "c"].
Proof. vm_compute. split; reflexivity. Qed.

(** ** The deadline-bounded retry loop *)

Section RetryLoop.
Context {W : Type} (B : Backend W).
Implicit Types (w : W) (base : string) (required : list string).

Lemma result_of_bind {A C} (m : M W A) (k : A -> M W C) w :
  result_of (bind m k) w = result_of (k (result_of m w)) (world_of m w).
Proof.
  unfold result_of, world_of, bind.
  destruct (m w) as [[a w1] t1]; simpl. destruct (k a w1) as [[b w2] t2]. reflexivity.
Qed.

Lemma world_of_bind {A C} (m : M W A) (k : A -> M W C) w :
  world_of (bind m k) w = world_of (k (result_of m w)) (world_of m w).
Proof.
  unfold result_of, world_of, bind.
  destruct (m w) as [[a w1] t1]; simpl. destruct (k a w1) as [[b w2] t2]. reflexivity.
Qed.

Lemma trace_of_bind {A C} (m : M W A) (k : A -> M W C) w :
  trace_of (bind m k) w
  = trace_of m w ++ trace_of (k (result_of m w)) (world_of m w).
Proof.
  unfold result_of, world_of, trace_of, bind.
  destruct (m w) as [[a w1] t1]; simpl. destruct (k a w1) as [[b w2] t2]. reflexivity.
Qed.

Lemma now_run w :
  result_of (now B) w = (time_Now B w).1 /\
  world_of (now B) w = (time_Now B w).2 /\
  trace_of (now B) w = [ENow (time_Now B w).1].
Proof.
  unfold result_of, world_of, trace_of, now.
  destruct (time_Now B w) as [t w1]. auto.
Qed.

Lemma pingOllama_trace base timeout w :
  trace_of (pingOllama B base timeout) w
  = [EPing (base +:+ "/api/tags") (result_of (pingOllama B base timeout) w)].
Proof.
  unfold trace_of, result_of, pingOllama.
  destruct (get_tags B (base +:+ "/api/tags") timeout w) as [resp w1]. reflexivity.
Qed.

Lemma sleep_trace d w : trace_of (sleep B d) w = [ESleep d].
Proof. reflexivity. Qed.

(** One iteration of the loop. *)
Lemma retryLoop_S fuel base reqTimeout required deadline last :
  retryLoop B (S fuel) base reqTimeout required deadline last
  = (t <- now B;;
     if decide (deadline < t) then
       ret (Returned (Some (match last with
                            | None => ErrNew "startup timeout"
                            | Some e => e
                            end)))
     else
       r <- pingOllama B base reqTimeout;;
       match r with
       | Some err =>
           sleep B (2 * second);;;
           retryLoop B fuel base reqTimeout required deadline
                     (Some (ErrWrap "ollama not responding: " err))
       | None =>
           r <- ensureAll B base reqTimeout required;;
           match r with
           | Some err =>
               sleep B (2 * second);;;
               retryLoop B fuel base reqTimeout required deadline
                         (Some (ErrWrap "ensure models: " err))
           | None => ret (Returned None)
           end
       end).
Proof. reflexivity. Qed.

(** Every bounded run of the loop is a run in the sense of [loop_run]. *)
Lemma retryLoop_run fuel base reqTimeout required deadline last w :
  loop_run B base reqTimeout required deadline last
    (trace_of (retryLoop B fuel base reqTimeout required deadline last) w)
    (result_of (retryLoop B fuel base reqTimeout required deadline last) w).
Proof.
  revert last w. induction fuel as [|fuel IH]; intros last w.
  - apply loop_run_out_of_fuel.
  - cbn [retryLoop].
    rewrite trace_of_bind, result_of_bind.
    destruct (now_run w) as [Hr [Hw Ht]]. rewrite Hr, Hw, Ht. clear Hr Hw Ht.
    set (t := (time_Now B w).1). set (w1 := (time_Now B w).2).
    destruct (decide (deadline < t)) as [Hpast|Hnot].
    { apply loop_run_deadline. exact Hpast. }
    assert (Hle : t <= deadline) by lia.
    rewrite trace_of_bind, result_of_bind, pingOllama_trace.
    set (w2 := world_of (pingOllama B base reqTimeout) w1).
    destruct (result_of (pingOllama B base reqTimeout) w1) as [err|].
    { rewrite trace_of_bind, result_of_bind, sleep_trace.
      apply loop_run_probe_failed; [exact Hle|apply IH]. }
    rewrite trace_of_bind, result_of_bind.
    set (w3 := world_of (ensureAll B base reqTimeout required) w2).
    destruct (result_of (ensureAll B base reqTimeout required) w2) as [err|] eqn:He.
    { rewrite trace_of_bind, result_of_bind, sleep_trace.
      apply (loop_run_ensure_failed B base reqTimeout required deadline last t w2 err);
        [exact Hle|exact He|apply IH]. }
    change (trace_of (ret (Returned None)) w3) with (@nil Event).
    rewrite app_nil_r.
    apply loop_run_ready; [exact Hle|exact He].
Qed.


(** When the clock is past the deadline at the head of an iteration, the
    loop returns there, whatever fuel is left. *)
Lemma retryLoop_past_deadline fuel base reqTimeout required deadline last w :
  deadline < (time_Now B w).1 ->
  retryLoop B (S fuel) base reqTimeout required deadline last w
  = (Returned (Some (match last with
                     | None => ErrNew "startup timeout"
                     | Some e => e
                     end)),
     (time_Now B w).2, [ENow (time_Now B w).1]).
Proof.
  intros Hpast. cbn [retryLoop]. unfold bind, now.
  destruct (time_Now B w) as [t w1]. simpl in *.
  destruct (decide (deadline < t)); [reflexivity|contradiction].
Qed.

End RetryLoop.

(** ** The loop follows the state machine *)

Section Protocol.
Context {W : Type} (B : Backend W).
Implicit Types (w : W) (base : string) (required : list string) (t : list Event).

Lemma phases_app deadline st t1 t2 :
  phases deadline st (t1 ++ t2) = phases deadline (phases deadline st t1) t2.
Proof. unfold phases. apply foldl_app. Qed.

Lemma phases_None deadline t : phases deadline None t = None.
Proof. induction t as [|e t IH]; [reflexivity|exact IH]. Qed.

Lemma phases_cons deadline p e t :
  phases deadline (Some p) (e :: t) = phases deadline (phase_step deadline p e) t.
Proof. reflexivity. Qed.

Lemma phases_pull_events deadline t :
  Forall (fun e => is_pull_event e = true) t ->
  phases deadline (Some Ensuring) t = Some Ensuring.
Proof.
  induction 1 as [|e t He Ht IH]; [reflexivity|].
  rewrite phases_cons. destruct e; try discriminate; exact IH.
Qed.

Lemma pullLoop_events model recs w :
  Forall (fun e => is_pull_event e = true) (pullLoop model recs w).2.
Proof.
  induction recs as [|[ev|e] recs IH].
  - repeat constructor.
  - destruct (decide (Error ev = "")) as [He|He].
    + destruct (decide (Status ev = "success")) as [Hs|Hs].
      * rewrite pullLoop_success by assumption.
        unfold record_trace, status_log.
        destruct (decide (Status ev = "")); repeat constructor.
      * rewrite pullLoop_quiet by (split; assumption). cbn [snd].
        apply Forall_app. split; [|exact IH].
        unfold record_trace, status_log.
        destruct (decide (Status ev = "")); repeat constructor.
    + rewrite pullLoop_error by assumption. repeat constructor.
  - repeat constructor.
Qed.

Lemma pullModel_events base timeout model w :
  Forall (fun e => is_pull_event e = true) (trace_of (pullModel B base timeout model) w).
Proof.
  unfold trace_of, pullModel, bind.
  destruct (post_pull B (base +:+ "/api/pull") timeout (pull_body model) w)
    as [[err|resp] w1]; [repeat constructor|].
  destruct (decide (Z.quot (pStatusCode resp) 100 = 2)); [|repeat constructor].
  pose proof (pullLoop_events model (pRecords resp) w1) as Hl.
  destruct (pullLoop model (pRecords resp) w1) as [[r w2] t2]. simpl in *.
  constructor; [reflexivity|exact Hl].
Qed.

Lemma pullAll_events base timeout missing w :
  Forall (fun e => is_pull_event e = true) (trace_of (pullAll B base timeout missing) w).
Proof.
  revert w. induction missing as [|m rest IH]; intros w; [constructor|].
  cbn [pullAll]. rewrite trace_of_bind. apply Forall_app. split; [repeat constructor|].
  rewrite trace_of_bind. apply Forall_app. split; [apply pullModel_events|].
  destruct (result_of (pullModel B base timeout m) _); [constructor|apply IH].
Qed.

(** An ensure attempt is one inventory query followed by events of
    retrievals only. *)
Lemma ensureAll_events base timeout required w :
  exists r body,
    trace_of (ensureAll B base timeout required) w
    = EList (base +:+ "/api/tags") r :: body /\
    Forall (fun e => is_pull_event e = true) body.
Proof.
  unfold ensureAll. rewrite trace_of_bind.
  pose proof (listModels_trace B base timeout w) as Hl.
  unfold trace_of at 1. rewrite Hl.
  eexists _, _. split; [reflexivity|].
  destruct (result_of (listModels B base timeout) w); [constructor|apply pullAll_events].
Qed.

Lemma ensureAll_phases deadline base timeout required w :
  phases deadline (Some Inventory) (trace_of (ensureAll B base timeout required) w)
  = Some Ensuring.
Proof.
  destruct (ensureAll_events base timeout required w) as [r [body [-> Hbody]]].
  rewrite phases_cons. apply phases_pull_events. exact Hbody.
Qed.

(** The trace of a run is accepted by the state machine. *)
Lemma loop_run_phases base reqTimeout required deadline last t out :
  loop_run B base reqTimeout required deadline last t out ->
  exists p, phases deadline (Some Checking) t = Some p /\ stops_in p out.
Proof.
  induction 1 as [last|last tn Hpast|last tn e rest out Hle Hrun IH
                 |last tn w2 e rest out Hle He Hrun IH|last tn w2 Hle He].
  - exists Checking. split; reflexivity.
  - exists Failed. split; [|reflexivity].
    rewrite phases_cons. simpl. destruct (decide (deadline < tn)); [reflexivity|contradiction].
  - destruct IH as [p [Hp Hs]]. exists p. split; [|exact Hs].
    rewrite !phases_cons. simpl.
    destruct (decide (deadline < tn)); [lia|]. simpl.
    destruct (decide (2 * second = 2 * second)); [exact Hp|contradiction].
  - destruct IH as [p [Hp Hs]]. exists p. split; [|exact Hs].
    rewrite phases_cons. cbn [phase_step].
    destruct (decide (deadline < tn)); [lia|].
    rewrite phases_cons. cbn [phase_step].
    rewrite phases_app, ensureAll_phases, phases_cons. cbn [phase_step].
    destruct (decide (2 * second = 2 * second)); [exact Hp|contradiction].
  - exists Ensuring. split; [|reflexivity].
    rewrite phases_cons. cbn [phase_step].
    destruct (decide (deadline < tn)); [lia|].
    rewrite phases_cons. cbn [phase_step].
    apply ensureAll_phases.
Qed.

Lemma phases_split deadline p0 pre e post p :
  phases deadline (Some p0) (pre ++ e :: post) = Some p ->
  exists q q',
    phases deadline (Some p0) pre = Some q /\
    phase_step deadline q e = Some q' /\
    phases deadline (Some q') post = Some p.
Proof.
  rewrite phases_app. destruct (phases deadline (Some p0) pre) as [q|].
  - rewrite phases_cons. destruct (phase_step deadline q e) as [q'|] eqn:Hstep.
    + intros Hp. exists q, q'. auto.
    + rewrite phases_None. discriminate.
  - rewrite phases_None. discriminate.
Qed.

Lemma phases_snoc deadline p0 pre e q' :
  phases deadline (Some p0) (pre ++ [e]) = Some q' ->
  exists q, phases deadline (Some p0) pre = Some q /\ phase_step deadline q e = Some q'.
Proof.
  intros H. apply phases_split in H as [q [q1 [Hq [Hstep Hend]]]].
  exists q. split; [exact Hq|]. simpl in Hend. congruence.
Qed.

(** The only step into [Inventory] is a successful probe, and the only
    step into [Probing] is a clock reading that is not past the deadline. *)
Lemma step_into_inventory deadline q e :
  phase_step deadline q e = Some Inventory ->
  q = Probing /\ exists url, e = EPing url None.
Proof.
  destruct q, e; simpl; try discriminate;
    repeat match goal with
           | |- context [decide ?P] => destruct (decide P)
           | r : option error |- _ => destruct r
           end; try discriminate.
  intros _. split; [reflexivity|]. eexists; reflexivity.
Qed.

Lemma step_into_probing deadline q e :
  phase_step deadline q e = Some Probing ->
  q = Checking /\ exists tn, e = ENow tn /\ tn <= deadline.
Proof.
  destruct q, e; simpl; try discriminate;
    repeat match goal with
           | |- context [decide ?P] => destruct (decide P)
           | r : option error |- _ => destruct r
           end; try discriminate.
  intros _. split; [reflexivity|]. eexists; split; [reflexivity|lia].
Qed.

Lemma before_inventory deadline pre :
  phases deadline (Some Checking) pre = Some Inventory ->
  exists pre' tn url, pre = pre' ++ [ENow tn; EPing url None] /\ tn <= deadline.
Proof.
  destruct pre as [|e pre1 _] using rev_ind; [discriminate|].
  intros H. apply phases_snoc in H as [q [Hq Hstep]].
  apply step_into_inventory in Hstep as [-> [url ->]].
  destruct pre1 as [|e2 pre2 _] using rev_ind; [discriminate|].
  apply phases_snoc in Hq as [q [Hq Hstep]].
  apply step_into_probing in Hstep as [-> [tn [-> Hle]]].
  exists pre2, tn, url. split; [|exact Hle].
  rewrite <- app_assoc. reflexivity.
Qed.

Lemma after_pause deadline pre pause post p :
  phases deadline (Some Checking) (pre ++ ESleep pause :: post) = Some p ->
  post = [] \/
  (exists tn, post = [ENow tn]) \/
  (exists tn url r post', post = ENow tn :: EPing url r :: post').
Proof.
  intros H. apply phases_split in H as [q [q' [_ [Hstep Hpost]]]].
  assert (q' = Checking) as ->.
  { destruct q; simpl in Hstep; try discriminate;
      destruct (decide (pause = 2 * second)); congruence. }
  destruct post as [|e post1]; [left; reflexivity|right].
  rewrite phases_cons in Hpost.
  destruct e; simpl in Hpost; try (rewrite phases_None in Hpost; discriminate).
  destruct post1 as [|e1 post2]; [left; eexists; reflexivity|right].
  destruct (decide (deadline < t)).
  - rewrite phases_cons in Hpost. simpl in Hpost.
    rewrite phases_None in Hpost. discriminate.
  - rewrite phases_cons in Hpost.
    destruct e1; simpl in Hpost; try (rewrite phases_None in Hpost; discriminate).
    eexists _, _, _, _. reflexivity.
Qed.

Lemma after_ensure_event deadline pre e e' post p :
  phases deadline (Some Checking) (pre ++ e :: e' :: post) = Some p ->
  is_ensure_event e = true ->
  is_pull_event e' = true \/ e' = ESleep (2 * second).
Proof.
  intros H He. apply phases_split in H as [q [q' [_ [Hstep Hpost]]]].
  assert (q' = Ensuring) as ->.
  { destruct q, e; simpl in Hstep, He; try discriminate; congruence. }
  rewrite phases_cons in Hpost.
  destruct e'; simpl in Hpost; try (rewrite phases_None in Hpost; discriminate);
    try (left; reflexivity).
  right. destruct (decide (d = 2 * second)) as [->|];
    [reflexivity|rewrite phases_None in Hpost; discriminate].
Qed.



(** C7.  With [t0] the clock reading before the loop, what follows it in
    the trace of [waitUntilReady] is accepted by the state machine run with
    the deadline [t0 + startupLimit] from the head of an iteration, and
    stops in the phase of the outcome.  So an inventory query (the start of
    an ensure attempt) comes only right after a deadline check and a
    successful probe of the same iteration; an ensure attempt is followed
    by nothing but the two-second pause; and after a pause comes the
    deadline check and then, if anything, a probe. *)
Theorem waitUntilReady_probes_before_ensuring
    fuel base reqTimeout startupLimit required w :
  exists rest,
    trace_of (waitUntilReady B fuel base reqTimeout startupLimit required) w
    = ENow (time_Now B w).1 :: rest /\
    (exists p,
        phases ((time_Now B w).1 + startupLimit) (Some Checking) rest = Some p /\
        stops_in p (result_of (waitUntilReady B fuel base reqTimeout startupLimit
                                 required) w)) /\
    (forall pre url r post,
        rest = pre ++ EList url r :: post ->
        exists pre' tn purl,
          pre = pre' ++ [ENow tn; EPing purl None] /\
          tn <= (time_Now B w).1 + startupLimit) /\
    (forall pre e e' post,
        rest = pre ++ e :: e' :: post ->
        is_ensure_event e = true ->
        is_pull_event e' = true \/ e' = ESleep (2 * second)) /\
    (forall pre pause post,
        rest = pre ++ ESleep pause :: post ->
        post = [] \/
        (exists tn, post = [ENow tn]) \/
        (exists tn url r post', post = ENow tn :: EPing url r :: post')).
Proof.
  set (deadline := (time_Now B w).1 + startupLimit).
  pose proof (retryLoop_run B fuel base reqTimeout required deadline None
                (time_Now B w).2) as Hrun.
  apply loop_run_phases in Hrun as [p [Hp Hstop]].
  unfold waitUntilReady.
  rewrite trace_of_bind, result_of_bind.
  destruct (now_run B w) as [Hr [Hw Ht]]. rewrite Hr, Hw, Ht.
  fold deadline.
  eexists. split; [reflexivity|].
  split; [exists p; split; [exact Hp|exact Hstop]|].
  split; [|split].
  - intros pre url r post Heq. rewrite Heq in Hp.
    apply phases_split in Hp as [q [q' [Hq [Hstep _]]]].
    assert (q = Inventory) as ->.
    { destruct q; simpl in Hstep; try discriminate. reflexivity. }
    apply before_inventory in Hq. exact Hq.
  - intros pre e e' post Heq He. rewrite Heq in Hp.
    exact (after_ensure_event deadline pre e e' post p Hp He).
  - intros pre pause post Heq. rewrite Heq in Hp.
    exact (after_pause deadline pre pause post p Hp).
Qed.

End Protocol.

(** ** The deadline bounds the loop

    On a backend whose clock never runs backwards, where [time.Now] does
    not read less than the clock and [time.Sleep] lets at least the
    requested time pass, the loop returns within a number of iterations
    fixed by the deadline: the bound on the iterations of the model is
    never what ends a run that was given enough of them. *)

Section Progress.
Context {W : Type} (B : Backend W) (clock : W -> Z).
Hypothesis now_reads_clock :
  forall w, clock w <= (time_Now B w).1 /\ clock w <= clock (time_Now B w).2.
Hypothesis sleep_advances :
  forall d w, clock w + d <= clock (time_Sleep B d w).
Hypothesis get_tags_monotone :
  forall url timeout w, clock w <= clock (get_tags B url timeout w).2.
Hypothesis post_pull_monotone :
  forall url timeout body w, clock w <= clock (post_pull B url timeout body w).2.

Lemma pingOllama_monotone base timeout w :
  clock w <= clock (world_of (pingOllama B base timeout) w).
Proof.
  unfold world_of, pingOllama.
  pose proof (get_tags_monotone (base +:+ "/api/tags") timeout w) as H.
  destruct (get_tags B (base +:+ "/api/tags") timeout w) as [resp w1]. exact H.
Qed.

Lemma listModels_monotone base timeout w :
  clock w <= clock (world_of (listModels B base timeout) w).
Proof.
  unfold world_of, listModels.
  pose proof (get_tags_monotone (base +:+ "/api/tags") timeout w) as H.
  destruct (get_tags B (base +:+ "/api/tags") timeout w) as [resp w1]. exact H.
Qed.

Lemma pullModel_monotone base timeout model w :
  clock w <= clock (world_of (pullModel B base timeout model) w).
Proof.
  unfold world_of, pullModel, bind.
  pose proof (post_pull_monotone (base +:+ "/api/pull") timeout (pull_body model) w) as H.
  destruct (post_pull B (base +:+ "/api/pull") timeout (pull_body model) w)
    as [[err|resp] w1]; [exact H|].
  destruct (decide (Z.quot (pStatusCode resp) 100 = 2)); [|exact H].
  pose proof (pullLoop_world model (pRecords resp) w1) as Hw.
  destruct (pullLoop model (pRecords resp) w1) as [[r w2] t2]. simpl in *.
  subst w2. exact H.
Qed.

Lemma pullAll_monotone base timeout missing w :
  clock w <= clock (world_of (pullAll B base timeout missing) w).
Proof.
  revert w. induction missing as [|m rest IH]; intros w; [reflexivity|].
  cbn [pullAll]. rewrite !world_of_bind.
  change (world_of (log_Printf ("pulling missing model: " +:+ m)) w) with w.
  pose proof (pullModel_monotone base timeout m w) as Hm.
  destruct (result_of (pullModel B base timeout m) w); [exact Hm|].
  etransitivity; [exact Hm|apply IH].
Qed.

Lemma ensureAll_monotone base timeout required w :
  clock w <= clock (world_of (ensureAll B base timeout required) w).
Proof.
  unfold ensureAll. rewrite world_of_bind.
  pose proof (listModels_monotone base timeout w) as Hl.
  destruct (result_of (listModels B base timeout) w); [exact Hl|].
  etransitivity; [exact Hl|apply pullAll_monotone].
Qed.

Lemma retryLoop_returns n base reqTimeout required deadline last w :
  deadline < clock w + 2 * second * Z.of_nat n ->
  exists r,
    result_of (retryLoop B (S n) base reqTimeout required deadline last) w = Returned r.
Proof.
  revert last w. induction n as [|n IH]; intros last w Hbound;
    rewrite retryLoop_S, result_of_bind;
    destruct (now_run B w) as [Hr [Hw _]]; rewrite Hr, Hw; clear Hr Hw;
    destruct (now_reads_clock w) as [Hread Hafter];
    (destruct (decide (deadline < (time_Now B w).1)) as [Hpast|Hnot];
     [eexists; reflexivity|]).
  - lia.
  - rewrite result_of_bind.
    pose proof (pingOllama_monotone base reqTimeout (time_Now B w).2) as Hping.
    destruct (result_of (pingOllama B base reqTimeout) (time_Now B w).2) as [err|].
    + rewrite result_of_bind. apply IH.
      change (world_of (sleep B (2 * second)) ?w0) with (time_Sleep B (2 * second) w0).
      pose proof (sleep_advances (2 * second)
                    (world_of (pingOllama B base reqTimeout) (time_Now B w).2)).
      lia.
    + rewrite result_of_bind.
      pose proof (ensureAll_monotone base reqTimeout required
                    (world_of (pingOllama B base reqTimeout) (time_Now B w).2)) as Hens.
      destruct (result_of (ensureAll B base reqTimeout required) _) as [err|].
      * rewrite result_of_bind. apply IH.
        change (world_of (sleep B (2 * second)) ?w0) with (time_Sleep B (2 * second) w0).
        pose proof (sleep_advances (2 * second)
                      (world_of (ensureAll B base reqTimeout required)
                         (world_of (pingOllama B base reqTimeout) (time_Now B w).2))).
        lia.
      * eexists; reflexivity.
Qed.

(** With more than [startupLimit / 2s] iterations allowed, [waitUntilReady]
    returns. *)
Lemma waitUntilReady_returns n base reqTimeout startupLimit required w :
  startupLimit < 2 * second * Z.of_nat n ->
  (time_Now B w).1 <= clock (time_Now B w).2 ->
  exists r,
    result_of (waitUntilReady B (S n) base reqTimeout startupLimit required) w
    = Returned r.
Proof.
  intros Hn Hread. unfold waitUntilReady. rewrite result_of_bind.
  destruct (now_run B w) as [Hr [Hw _]]. rewrite Hr, Hw.
  apply retryLoop_returns. lia.
Qed.

End Progress.

(** The scripted backend has such a clock. *)
Lemma scripted_waitUntilReady_returns n base reqTimeout startupLimit required w :
  startupLimit < 2 * second * Z.of_nat n ->
  exists r,
    result_of (waitUntilReady scripted (S n) base reqTimeout startupLimit required) w
    = Returned r.
Proof.
  intros Hn.
  apply (waitUntilReady_returns scripted clock); try exact Hn.
  - intros w0. simpl. lia.
  - intros d w0. simpl. lia.
  - intros url timeout w0. simpl. destruct (tags_replies w0); simpl; lia.
  - intros url timeout body w0. simpl. destruct (pull_replies w0); simpl; lia.
  - simpl. lia.
Qed.

(** ** A satisfied required set needs no retrieval *)

Section Satisfied.
Context {W : Type} (B : Backend W).
Implicit Types (w : W) (base : string) (required : list string) (have : gset string).

Lemma missingOf_satisfied have required :
  Forall (fun need => need ∈ have) required -> missingOf have required = [].
Proof.
  intros Hall. rewrite missingOf_filter.
  induction Hall as [|need required Hin Hall IH]; [reflexivity|].
  rewrite filter_cons_False by (intros Hn; exact (Hn Hin)). exact IH.
Qed.

Lemma ensureAll_satisfied base timeout required w have :
  result_of (listModels B base timeout) w = inr have ->
  Forall (fun need => need ∈ have) required ->
  ensureAll B base timeout required w
  = (None, world_of (listModels B base timeout) w,
     [EList (base +:+ "/api/tags") (inr have)]).
Proof.
  intros Hlist Hall. unfold ensureAll, bind.
  pose proof (listModels_trace B base timeout w) as Htr.
  unfold result_of, world_of in *.
  destruct (listModels B base timeout w) as [[r w1] t1]. simpl in *. subst r t1.
  rewrite (missingOf_satisfied have required Hall). reflexivity.
Qed.

(** C8.  (1) When the first deadline check passes, the probe succeeds and
    the inventory query reports a set that holds every required model, a
    run of [waitUntilReady] returns [nil] in its first iteration and sends
    no pull request.  (2) When an ensure cycle has succeeded and the
    inventory reported to the next cycle still holds what was reported to
    the first and holds the models the first one retrieved, the next cycle
    returns [nil] and sends no pull request. *)
Theorem satisfied_required_needs_no_pull base reqTimeout required :
  (forall fuel startupLimit w have,
      (time_Now B (time_Now B w).2).1 <= (time_Now B w).1 + startupLimit ->
      result_of (pingOllama B base reqTimeout) (time_Now B (time_Now B w).2).2 = None ->
      result_of (listModels B base reqTimeout)
        (world_of (pingOllama B base reqTimeout) (time_Now B (time_Now B w).2).2)
      = inr have ->
      Forall (fun need => need ∈ have) required ->
      result_of (waitUntilReady B (S fuel) base reqTimeout startupLimit required) w
      = Returned None /\
      pull_calls (trace_of (waitUntilReady B (S fuel) base reqTimeout startupLimit
                              required) w) = []) /\
  (forall w have1 have2,
      result_of (listModels B base reqTimeout) w = inr have1 ->
      result_of (ensureAll B base reqTimeout required) w = None ->
      result_of (listModels B base reqTimeout)
        (world_of (ensureAll B base reqTimeout required) w) = inr have2 ->
      have1 ⊆ have2 ->
      Forall (fun m => m ∈ have2) (missingOf have1 required) ->
      result_of (ensureAll B base reqTimeout required)
        (world_of (ensureAll B base reqTimeout required) w) = None /\
      pull_calls (trace_of (ensureAll B base reqTimeout required)
                    (world_of (ensureAll B base reqTimeout required) w)) = []).
Proof.
  split.
  - intros fuel startupLimit w have Hdeadline Hping Hlist Hall.
    unfold waitUntilReady. rewrite result_of_bind, trace_of_bind.
    destruct (now_run B w) as [Hr [Hw Ht]]. rewrite Hr, Hw, Ht. clear Hr Hw Ht.
    cbn [retryLoop]. rewrite result_of_bind, trace_of_bind.
    destruct (now_run B (time_Now B w).2) as [Hr [Hw Ht]]. rewrite Hr, Hw, Ht.
    clear Hr Hw Ht.
    destruct (decide ((time_Now B w).1 + startupLimit < (time_Now B (time_Now B w).2).1));
      [lia|].
    rewrite result_of_bind, trace_of_bind, pingOllama_trace, Hping.
    rewrite result_of_bind, trace_of_bind.
    pose proof (ensureAll_satisfied base reqTimeout required _ have Hlist Hall) as He.
    assert (Hre : result_of (ensureAll B base reqTimeout required)
                    (world_of (pingOllama B base reqTimeout)
                       (time_Now B (time_Now B w).2).2) = None)
      by (unfold result_of; rewrite He; reflexivity).
    assert (Hte : trace_of (ensureAll B base reqTimeout required)
                    (world_of (pingOllama B base reqTimeout)
                       (time_Now B (time_Now B w).2).2)
                  = [EList (base +:+ "/api/tags") (inr have)])
      by (unfold trace_of; rewrite He; reflexivity).
    rewrite Hre, Hte. split; reflexivity.
  - intros w have1 have2 Hlist1 Hok Hlist2 Hsub Hmissing.
    assert (Hall : Forall (fun need => need ∈ have2) required).
    { rewrite missingOf_filter in Hmissing.
      rewrite Forall_forall in Hmissing |- *. intros need Hin.
      destruct (decide (need ∈ have1)) as [H1|H1].
      - apply Hsub. exact H1.
      - apply Hmissing. apply list_elem_of_filter. split; assumption. }
    pose proof (ensureAll_satisfied base reqTimeout required _ have2 Hlist2 Hall) as He.
    unfold result_of at 1. unfold trace_of. rewrite He. split; reflexivity.
Qed.

End Satisfied.

(** ** Runs of the engine on the scripted backend *)

Lemma satisfied_required_needs_no_pull_witness :
  (result_of (waitUntilReady scripted 1 "http://ollama:11434" (30 * second) (60 * second)
                ["a"; "b"]) ready_world = Returned None /\
   pull_calls (trace_of (waitUntilReady scripted 1 "http://ollama:11434" (30 * second)
                           (60 * second) ["a"; "b"]) ready_world) = []) /\
  (result_of (ensureAll scripted "http://ollama:11434" (30 * second) ["a"; "b"])
     (world_of (ensureAll scripted "http://ollama:11434" (30 * second) ["a"; "b"])
        two_cycles_world) = None /\
   pull_calls (trace_of (ensureAll scripted "http://ollama:11434" (30 * second) ["a"; "b"])
                 (world_of (ensureAll scripted "http://ollama:11434" (30 * second)
                              ["a"; "b"]) two_cycles_world)) = []).
Proof.
  split.
  - refine (proj1 (satisfied_required_needs_no_pull scripted "http://ollama:11434"
                     (30 * second) ["a"; "b"])
              0%nat (60 * second) ready_world ({["b"]} ∪ ({["a"]} ∪ ∅)) _ _ _ _).
    + simpl. unfold second. lia.
    + reflexivity.
    + reflexivity.
    + repeat constructor; apply (bool_decide_unpack _); vm_compute; exact I.
  - refine (proj2 (satisfied_required_needs_no_pull scripted "http://ollama:11434"
                     (30 * second) ["a"; "b"])
              two_cycles_world ({["a"]} ∪ ∅) ({["b"]} ∪ ({["a"]} ∪ ∅)) _ _ _ _ _).
    + reflexivity.
    + vm_compute. reflexivity.
    + vm_compute. reflexivity.
    + apply union_subseteq_r.
    + apply (bool_decide_unpack _). vm_compute. exact I.
Defined.

(** The example of section 8: ready after exactly one retrieval, for [b]. *)
Example waitUntilReady_example :
  result_of (waitUntilReady scripted 3 "http://ollama:11434" (30 * second) (60 * second)
               ["a"; "b"]) example_world = Returned None /\
  pull_calls (trace_of (waitUntilReady scripted 3 "http://ollama:11434" (30 * second)
                          (60 * second) ["a"; "b"]) example_world)
  = [pull_body "b"].
Proof. vm_compute. split; reflexivity. Qed.

(** ** Cancellation *)

Section Cancellation.
Context {W : Type} (B : Backend W).

(** The loop does not look at the kind of the error of a failed probe or of
    a failed ensure attempt: it records it, pauses and goes on to the next
    iteration, also when the error is the cancellation of the context. *)
Lemma retryLoop_retries_after_any_probe_error
    fuel base reqTimeout required deadline last (w : W) err :
  (time_Now B w).1 <= deadline ->
  result_of (pingOllama B base reqTimeout) (time_Now B w).2 = Some err ->
  trace_of (retryLoop B (S fuel) base reqTimeout required deadline last) w
  = ENow (time_Now B w).1
      :: EPing (base +:+ "/api/tags") (Some err)
      :: ESleep (2 * second)
      :: trace_of (retryLoop B fuel base reqTimeout required deadline
                     (Some (ErrWrap "ollama not responding: " err)))
           (time_Sleep B (2 * second)
              (world_of (pingOllama B base reqTimeout) (time_Now B w).2)).
Proof.
  intros Hle Hping. cbn [retryLoop]. rewrite trace_of_bind.
  destruct (now_run B w) as [Hr [Hw Ht]]. rewrite Hr, Hw, Ht.
  destruct (decide (deadline < (time_Now B w).1)); [lia|].
  rewrite trace_of_bind, pingOllama_trace, Hping.
  rewrite trace_of_bind. reflexivity.
Qed.

Lemma retryLoop_retries_after_any_ensure_error
    fuel base reqTimeout required deadline last (w : W) err :
  (time_Now B w).1 <= deadline ->
  result_of (pingOllama B base reqTimeout) (time_Now B w).2 = None ->
  result_of (ensureAll B base reqTimeout required)
    (world_of (pingOllama B base reqTimeout) (time_Now B w).2) = Some err ->
  result_of (retryLoop B (S fuel) base reqTimeout required deadline last) w
  = result_of (retryLoop B fuel base reqTimeout required deadline
                 (Some (ErrWrap "ensure models: " err)))
      (time_Sleep B (2 * second)
         (world_of (ensureAll B base reqTimeout required)
            (world_of (pingOllama B base reqTimeout) (time_Now B w).2))).
Proof.
  intros Hle Hping Hens. rewrite retryLoop_S, result_of_bind.
  destruct (now_run B w) as [Hr [Hw Ht]]. rewrite Hr, Hw.
  destruct (decide (deadline < (time_Now B w).1)); [lia|].
  rewrite result_of_bind, Hping, result_of_bind, Hens, result_of_bind.
  reflexivity.
Qed.

End Cancellation.

(** C6, on the code.  With the context cancelled before the first probe
    and a startup limit of three seconds, [waitUntilReady] does not return
    at the cancelled probe: it pauses two seconds, probes again, pauses
    again, and returns only once the deadline has passed, with the error of
    the last probe. *)
Theorem waitUntilReady_retries_after_cancel :
  is_canceled canceled_request = true /\
  trace_of (waitUntilReady scripted 5 "http://ollama:11434" (30 * second) (3 * second)
              ["a"]) canceled_world
  = [ENow 0;
     ENow 0; EPing "http://ollama:11434/api/tags" (Some canceled_request);
     ESleep (2 * second);
     ENow (2 * second); EPing "http://ollama:11434/api/tags" (Some canceled_request);
     ESleep (2 * second);
     ENow (4 * second)] /\
  result_of (waitUntilReady scripted 5 "http://ollama:11434" (30 * second) (3 * second)
               ["a"]) canceled_world
  = Returned (Some (ErrWrap "ollama not responding: " canceled_request)).
Proof. vm_compute. repeat split. Qed.

(** ** The one-shot probe *)

Section ProbeMain.
Context (R : Runtime) {W : Type} (B : Backend W).
Implicit Types (w : W) (have : gset string) (required : list string).

(** The environment passes validation exactly when the five checks of
    [main] succeed, each on the value the one before produced. *)
Lemma config_Some ollama required reqTimeout :
  Probe.config R = Some (ollama, required, reqTimeout) <->
  exists rawModels reqTimeoutStr,
    Probe.requireEnv R "OLLAMA_BASE_URL" = inr ollama /\
    Probe.requireEnv R "REQUIRED_MODELS" = inr rawModels /\
    Probe.parseModels R rawModels = inr required /\
    Probe.requireEnv R "REQUEST_TIMEOUT" = inr reqTimeoutStr /\
    Probe.mustParseDuration R reqTimeoutStr "REQUEST_TIMEOUT" = inr reqTimeout.
Proof.
  unfold Probe.config. split.
  - destruct (Probe.requireEnv R "OLLAMA_BASE_URL") as [e|o]; [discriminate|].
    destruct (Probe.requireEnv R "REQUIRED_MODELS") as [e|raw]; [discriminate|].
    destruct (Probe.parseModels R raw) as [e|req] eqn:Hparse; [discriminate|].
    destruct (Probe.requireEnv R "REQUEST_TIMEOUT") as [e|ts]; [discriminate|].
    destruct (Probe.mustParseDuration R ts "REQUEST_TIMEOUT") as [e|t] eqn:Hdur;
      [discriminate|].
    intros [= <- <- <-]. exists raw, ts. auto.
  - intros [raw [ts [-> [-> [-> [-> ->]]]]]]. reflexivity.
Qed.

Lemma checkRequired_present have required :
  Forall (fun need => need ∈ have) required ->
  Probe.checkRequired have required = Probe.mkExit 0 [].
Proof.
  induction 1 as [|need required Hin Hall IH]; [reflexivity|].
  simpl. destruct (decide (need ∈ have)); [exact IH|contradiction].
Qed.

Lemma checkRequired_absent have required :
  ~ Forall (fun need => need ∈ have) required ->
  exists need,
    need ∈ required /\ (need ∉ have) /\
    Probe.checkRequired have required = Probe.mkExit 1 ["missing model: " +:+ need].
Proof.
  induction required as [|need required IH]; intros Hnot.
  - exfalso. apply Hnot. constructor.
  - simpl. destruct (decide (need ∈ have)) as [Hin|Hout].
    + destruct IH as [m [Hm [Hout Hc]]].
      { intros Hall. apply Hnot. constructor; assumption. }
      exists m. split; [right; exact Hm|]. split; [exact Hout|exact Hc].
    + exists need. split; [left|]. split; [exact Hout|reflexivity].
Qed.

(** C9.  When the environment fails validation the probe exits with status
    1 without any request.  Otherwise it sends the one inventory query and
    nothing else; it exits with status 1 when the query fails (transport,
    status or decoding) and when some required model is not in the
    inventory, and with status 0 and no output when every required model
    is. *)
Theorem probe_exit_status w :
  match Probe.config R with
  | None =>
      Probe.exit_code (result_of (Probe.main R B) w) = 1 /\
      trace_of (Probe.main R B) w = []
  | Some (ollama, required, reqTimeout) =>
      trace_of (Probe.main R B) w
      = [EList (ollama +:+ "/api/tags") (result_of (listModels B ollama reqTimeout) w)] /\
      match result_of (listModels B ollama reqTimeout) w with
      | inl err => result_of (Probe.main R B) w = Probe.mkExit 1 [error_msg err]
      | inr have =>
          (Forall (fun need => need ∈ have) required ->
           result_of (Probe.main R B) w = Probe.mkExit 0 []) /\
          (~ Forall (fun need => need ∈ have) required ->
           exists need,
             need ∈ required /\ (need ∉ have) /\
             result_of (Probe.main R B) w
             = Probe.mkExit 1 ["missing model: " +:+ need])
      end
  end.
Proof.
  unfold Probe.config, Probe.main.
  destruct (Probe.requireEnv R "OLLAMA_BASE_URL") as [e|ollama]; [split; reflexivity|].
  destruct (Probe.requireEnv R "REQUIRED_MODELS") as [e|raw]; [split; reflexivity|].
  destruct (Probe.parseModels R raw) as [e|required]; [split; reflexivity|].
  destruct (Probe.requireEnv R "REQUEST_TIMEOUT") as [e|ts]; [split; reflexivity|].
  destruct (Probe.mustParseDuration R ts "REQUEST_TIMEOUT") as [e|reqTimeout];
    [split; reflexivity|].
  rewrite trace_of_bind, result_of_bind.
  pose proof (listModels_trace B ollama reqTimeout w) as Htr.
  unfold trace_of at 1. rewrite Htr. fold (result_of (listModels B ollama reqTimeout) w).
  destruct (result_of (listModels B ollama reqTimeout) w) as [err|have].
  - split; reflexivity.
  - split; [reflexivity|]. split.
    + intros Hall. unfold result_of, ret. simpl. apply checkRequired_present. exact Hall.
    + intros Hnot. unfold result_of, ret. simpl. apply checkRequired_absent. exact Hnot.
Qed.

End ProbeMain.

(** Runs of the probe: all models present; one model absent; the backend
    unreachable. *)
Example probe_main_present :
  Probe.main (ascii_runtime probe_env) scripted (mkScript 0 [tags_ok ["b"; "a"; "c"]] [])
  = (Probe.mkExit 0 [], mkScript 0 [] [],
     [EList "http://ollama:11434/api/tags" (inr ({["c"]} ∪ ({["a"]} ∪ ({["b"]} ∪ ∅))))]).
Proof. vm_compute. reflexivity. Qed.

Example probe_main_absent :
  result_of (Probe.main (ascii_runtime probe_env) scripted) (mkScript 0 [tags_ok ["a"]] [])
  = Probe.mkExit 1 ["missing model: b"].
Proof. vm_compute. reflexivity. Qed.

Example probe_main_unreachable :
  result_of (Probe.main (ascii_runtime probe_env) scripted) (mkScript 0 [] [])
  = Probe.mkExit 1 ["connection refused"].
Proof. vm_compute. reflexivity. Qed.

(** ** The request body of a retrieval *)

Section PullBody.

Lemma string_app_assoc (s1 s2 s3 : string) : (s1 +:+ s2) +:+ s3 = s1 +:+ (s2 +:+ s3).
Proof.
  induction s1 as [|c s1 IH]; [reflexivity|].
  change (String c ((s1 +:+ s2) +:+ s3) = String c (s1 +:+ (s2 +:+ s3))).
  rewrite IH. reflexivity.
Qed.

Lemma string_length_app (s1 s2 : string) :
  String.length (s1 +:+ s2) = (String.length s1 + String.length s2)%nat.
Proof.
  induction s1 as [|c s1 IH]; [reflexivity|].
  change (S (String.length (s1 +:+ s2)) = S (String.length s1 + String.length s2)).
  rewrite IH. reflexivity.
Qed.

Lemma json_escape_char_plain c :
  json_needs_escape c = false -> json_escape_char c = String c EmptyString.
Proof.
  unfold json_needs_escape, json_escape_char.
  destruct (bool_decide (c = quote_char)); [discriminate|].
  destruct (bool_decide (c = backslash_char)); [discriminate|].
  destruct (nat_of_ascii c <? 32)%nat; [discriminate|reflexivity].
Qed.

Lemma json_escape_char_longer c :
  json_needs_escape c = true -> (2 <= String.length (json_escape_char c))%nat.
Proof.
  unfold json_needs_escape, json_escape_char.
  destruct (bool_decide (c = quote_char)); [simpl; lia|].
  destruct (bool_decide (c = backslash_char)); [simpl; lia|].
  destruct (nat_of_ascii c <? 32)%nat; [simpl; lia|discriminate].
Qed.

Lemma json_escape_char_length c : (1 <= String.length (json_escape_char c))%nat.
Proof.
  destruct (json_needs_escape c) eqn:E.
  - pose proof (json_escape_char_longer c E). lia.
  - rewrite (json_escape_char_plain c E). simpl. lia.
Qed.

Lemma json_escape_plain s : json_plain s = true -> json_escape s = s.
Proof.
  induction s as [|c s IH]; simpl; [reflexivity|].
  intros H. apply andb_true_iff in H as [Hc Hs]. apply negb_true_iff in Hc.
  rewrite (json_escape_char_plain c Hc), (IH Hs). reflexivity.
Qed.

Lemma json_escape_length s : (String.length s <= String.length (json_escape s))%nat.
Proof.
  induction s as [|c s IH]; simpl; [lia|].
  rewrite string_length_app. pose proof (json_escape_char_length c). lia.
Qed.

Lemma json_escape_same_length s :
  String.length (json_escape s) = String.length s -> json_plain s = true.
Proof.
  induction s as [|c s IH]; simpl; [reflexivity|].
  rewrite string_length_app. intros Hlen.
  pose proof (json_escape_length s) as Hs.
  destruct (json_needs_escape c) eqn:E.
  - pose proof (json_escape_char_longer c E). lia.
  - rewrite (json_escape_char_plain c E) in Hlen. simpl in Hlen.
    simpl. apply IH. lia.
Qed.

Lemma json_name_object_unfold model :
  json_name_object model
  = "{" +:+ dquote +:+ "name" +:+ dquote +:+ ":" +:+ dquote
        +:+ json_escape model +:+ dquote +:+ "}".
Proof.
  unfold json_name_object, json_string.
  replace (json_escape "name") with "name" by (vm_compute; reflexivity).
  rewrite !string_app_assoc. reflexivity.
Qed.

(** C10 (as amended).  The body [pullModel] sends is the JSON encoding of
    the object with the member [name] exactly for the identifiers that hold
    no quotation mark, no reverse solidus and no control character below
    U+0020; for every other identifier the two differ. *)
Theorem pull_body_is_json_iff_plain model :
  pull_body model = json_name_object model <-> json_plain model = true.
Proof.
  rewrite json_name_object_unfold. unfold pull_body. split.
  - intros Heq. apply json_escape_same_length.
    apply (f_equal String.length) in Heq.
    rewrite !string_length_app in Heq. lia.
  - intros Hplain. rewrite (json_escape_plain model Hplain). reflexivity.
Qed.

End PullBody.

Lemma pull_body_is_json_iff_plain_witness :
  pull_body "llama3:8b" = json_name_object "llama3:8b".
Proof. apply (proj2 (pull_body_is_json_iff_plain "llama3:8b")). reflexivity. Defined.

(** C10 as stated fails: the identifier made of the one byte U+0001 holds
    no quotation mark and no reverse solidus, and the body sent is not the
    JSON encoding (which writes that byte as an escape). *)
Lemma pull_body_control_character_not_json :
  no_quote_no_backslash (String "001"%char EmptyString) = true /\
  pull_body (String "001"%char EmptyString)
  <> json_name_object (String "001"%char EmptyString).
Proof. split; [reflexivity|]. vm_compute. discriminate. Qed.

(** An identifier with quotation marks closes the string of the body and
    adds a member of its own. *)
Example pull_body_injected_member :
  pull_body ("x" +:+ dquote +:+ "," +:+ dquote +:+ "insecure" +:+ dquote +:+ ":"
                 +:+ dquote +:+ "1")
  = "{" +:+ dquote +:+ "name" +:+ dquote +:+ ":" +:+ dquote +:+ "x" +:+ dquote
        +:+ "," +:+ dquote +:+ "insecure" +:+ dquote +:+ ":" +:+ dquote +:+ "1" +:+ dquote
        +:+ "}".
Proof. reflexivity. Qed.

(* ================================================================== *)
(** * Further properties of the code *)

(** ** pullModel: rejected requests, malformed records, success *)

Section PullModelMore.
Context {W : Type} (B : Backend W).
Implicit Types (w : W) (model base : string) (ev : pullEvent).

Lemma status_2xx (s : Z) : Z.quot s 100 = 2 <-> 200 <= s <= 299.
Proof.
  pose proof (Z.quot_rem' s 100) as Hqr.
  split.
  - intros Hq. rewrite Hq in Hqr.
    assert (0 <= s) as Hs.
    { destruct (Z.le_gt_cases 0 s) as [H|H]; [exact H|].
      pose proof (Z.quot_opp_l s 100 ltac:(lia)) as Ho.
      pose proof (Z.quot_pos (- s) 100 ltac:(lia) ltac:(lia)). lia. }
    pose proof (Z.rem_bound_pos s 100 Hs ltac:(lia)). lia.
  - intros [Hlo Hhi].
    pose proof (Z.rem_bound_pos s 100 ltac:(lia) ltac:(lia)).
    pose proof (Z.quot_pos s 100 ltac:(lia) ltac:(lia)). lia.
Qed.

Lemma substring_prefix_length n (s : string) :
  (String.length (String.substring 0 n s) <= n)%nat.
Proof.
  revert s. induction n as [|n IH]; intros [|c s]; simpl; try lia.
  specialize (IH s). lia.
Qed.

Lemma substring_prefix_app n (s : string) :
  exists tail, s = String.substring 0 n s +:+ tail.
Proof.
  revert s. induction n as [|n IH]; intros [|c s]; simpl.
  - exists EmptyString. reflexivity.
  - exists (String c s). reflexivity.
  - exists EmptyString. reflexivity.
  - destruct (IH s) as [tail Ht]. exists tail.
    change (String c s = String c (String.substring 0 n s +:+ tail)).
    rewrite <- Ht. reflexivity.
Qed.

Lemma substring_prefix_all n (s : string) :
  (String.length s <= n)%nat -> String.substring 0 n s = s.
Proof.
  revert s. induction n as [|n IH]; intros [|c s]; simpl; try reflexivity; try lia.
  intros Hlen. rewrite IH by lia. reflexivity.
Qed.

(** X1.  When the pull request is answered with a status outside
    200..299, [pullModel] fails without a single [Decode] call; its
    message quotes a prefix of the body of at most 8192 bytes (the whole
    body when it is no longer than that). *)
Theorem pullModel_rejected_status base timeout model w w' resp :
  post_pull B (base +:+ "/api/pull") timeout (pull_body model) w = (inr resp, w') ->
  ~ (200 <= pStatusCode resp <= 299) ->
  exists b tail,
    result_of (pullModel B base timeout model) w
    = Some (ErrNew ("pull " +:+ model +:+ " failed: status "
                    +:+ fmt_d (pStatusCode resp) +:+ ": " +:+ b)) /\
    pRaw resp = b +:+ tail /\
    Z.of_nat (String.length b) <= 8192 /\
    (Z.of_nat (String.length (pRaw resp)) <= 8192 -> b = pRaw resp) /\
    decode_calls (trace_of (pullModel B base timeout model) w) = [] /\
    world_of (pullModel B base timeout model) w = w'.
Proof.
  intros Hpost Hst.
  destruct (substring_prefix_app (Z.to_nat 8192) (pRaw resp)) as [tail Htail].
  exists (String.substring 0 (Z.to_nat 8192) (pRaw resp)), tail.
  unfold result_of, world_of, trace_of, pullModel, bind. rewrite Hpost.
  destruct (decide (Z.quot (pStatusCode resp) 100 = 2)) as [H2|H2].
  { apply status_2xx in H2. contradiction. }
  cbn [fst snd ret]. split; [reflexivity|]. split; [exact Htail|]. split.
  - pose proof (substring_prefix_length (Z.to_nat 8192) (pRaw resp)). lia.
  - split; [|split; reflexivity].
    intros Hlen. apply substring_prefix_all. lia.
Qed.

(** X2.  A record that does not decode ends the retrieval at once: when
    the records before it decode, carry no error and are not the success
    marker, [pullModel] returns the decoding error wrapped (so its cause
    stays recognisable), and makes no [Decode] call after the failed
    one, whatever follows in the stream. *)
Theorem pullModel_malformed_record base timeout model w w' resp pre e rest :
  post_pull B (base +:+ "/api/pull") timeout (pull_body model) w = (inr resp, w') ->
  200 <= pStatusCode resp <= 299 ->
  pRecords resp = pre ++ DecError e :: rest ->
  Forall quiet pre ->
  result_of (pullModel B base timeout model) w
  = Some (ErrWrap ("pull " +:+ model +:+ ": decode: ") e) /\
  decode_calls (trace_of (pullModel B base timeout model) w)
  = Some <$> (pre ++ [DecError e]) /\
  (forall err, result_of (pullModel B base timeout model) w = Some err ->
               is_canceled err = is_canceled e).
Proof.
  intros Hpost Hst Hrecs Hq. apply status_2xx in Hst.
  unfold result_of, trace_of.
  rewrite (pullModel_streaming B base timeout model w w' resp Hpost Hst), Hrecs.
  rewrite pullLoop_quiet_app by assumption. rewrite pullLoop_decode_error.
  cbn [fst snd]. split; [reflexivity|]. split.
  - rewrite decode_calls_post, decode_calls_app, decode_calls_records, fmap_app.
    reflexivity.
  - intros err [= <-]. reflexivity.
Qed.

Lemma pullLoop_nil_inv model recs w :
  (pullLoop model recs w).1.1 = None ->
  exists pre ev rest,
    recs = pre ++ DecEvent ev :: rest /\
    Forall quiet pre /\ Status ev = "success" /\ Error ev = "".
Proof.
  induction recs as [|[ev|e] recs IH]; [discriminate| |discriminate].
  destruct (decide (Error ev = "")) as [He|He].
  - destruct (decide (Status ev = "success")) as [Hs|Hs].
    + intros _. exists [], ev, recs. repeat split; try assumption. constructor.
    + rewrite pullLoop_quiet by (split; assumption). cbn [fst].
      intros Hnil. destruct (IH Hnil) as [pre [ev' [rest [-> [Hq [Hs' He']]]]]].
      exists (DecEvent ev :: pre), ev', rest. repeat split; try assumption.
      constructor; [split; assumption|exact Hq].
  - rewrite pullLoop_error by assumption. discriminate.
Qed.

(** X3.  [pullModel] returns [nil] exactly when the request was answered
    with a status in 200..299 and the stream holds a record with status
    ["success"] and no error, all records before it decoding, carrying no
    error and having another status: success is never inferred from
    anything else. *)
Theorem pullModel_nil_iff base timeout model w :
  result_of (pullModel B base timeout model) w = None <->
  exists resp pre ev rest,
    (post_pull B (base +:+ "/api/pull") timeout (pull_body model) w).1 = inr resp /\
    200 <= pStatusCode resp <= 299 /\
    pRecords resp = pre ++ DecEvent ev :: rest /\
    Forall quiet pre /\ Status ev = "success" /\ Error ev = "".
Proof.
  split.
  - unfold result_of, pullModel, bind.
    destruct (post_pull B (base +:+ "/api/pull") timeout (pull_body model) w)
      as [[err|resp] w1] eqn:Hpost; [discriminate|].
    destruct (decide (Z.quot (pStatusCode resp) 100 = 2)) as [H2|H2]; [|discriminate].
    destruct (pullLoop model (pRecords resp) w1) as [[r w2] t2] eqn:Hloop.
    cbn [fst snd]. intros ->.
    destruct (pullLoop_nil_inv model (pRecords resp) w1) as [pre [ev [rest H]]].
    { rewrite Hloop. reflexivity. }
    exists resp, pre, ev, rest. split; [reflexivity|].
    split; [apply status_2xx; exact H2|exact H].
  - intros [resp [pre [ev [rest [Hpost [Hst [Hrecs [Hq [Hs He]]]]]]]]].
    destruct (post_pull B (base +:+ "/api/pull") timeout (pull_body model) w)
      as [r w1] eqn:Hp. simpl in Hpost. subst r.
    apply status_2xx in Hst. unfold result_of.
    rewrite (pullModel_streaming B base timeout model w w1 resp Hp Hst), Hrecs.
    rewrite pullLoop_quiet_app by assumption.
    rewrite pullLoop_success by assumption. reflexivity.
Qed.

End PullModelMore.

(** ** The inventory and the probe *)

Section InventoryMore.
Context {W : Type} (B : Backend W).
Implicit Types (w : W) (base : string) (have : gset string).

Lemma elem_of_names_set (names : list string) (acc : gset string) (x : string) :
  x ∈ foldl (fun (have : gset string) name => {[name]} ∪ have) acc names
  <-> x ∈ acc \/ x ∈ names.
Proof.
  revert acc. induction names as [|n names IH]; intros acc; simpl.
  - split; [auto|]. intros [H|H]; [exact H|]. inversion H.
  - rewrite IH. rewrite elem_of_union, elem_of_singleton, elem_of_cons. tauto.
Qed.

(** X4.  When [listModels] returns a set, the request was answered with a
    status below 400 and a body that decodes, and the set holds exactly
    the names of the body: a name listed twice counts once, and the order
    of the names plays no part. *)
Theorem listModels_set_of_names base timeout w have :
  result_of (listModels B base timeout) w = inr have ->
  exists resp names,
    (get_tags B (base +:+ "/api/tags") timeout w).1 = inr resp /\
    tStatusCode resp < 400 /\
    tModels resp = inr names /\
    forall name, name ∈ have <-> name ∈ names.
Proof.
  unfold result_of, listModels.
  destruct (get_tags B (base +:+ "/api/tags") timeout w) as [[err|resp] w1];
    [discriminate|].
  cbn [fst snd].
  destruct (decide (400 <= tStatusCode resp)) as [Hs|Hs]; [discriminate|].
  destruct (tModels resp) as [err|names] eqn:Hm; [discriminate|].
  intros [= <-]. exists resp, names.
  split; [reflexivity|]. split; [lia|]. split; [exact Hm|].
  intros name. rewrite elem_of_names_set. split; [|auto].
  intros [H|H]; [|exact H]. exfalso. exact (not_elem_of_empty (C:=gset string) name H).
Qed.


(** X6.  [ensureAll] never asks for a model it has no reason to: every
    pull request it sends is for a model of the required list that the
    inventory of this cycle did not hold; when the inventory query fails
    it sends none and returns the error of the query. *)
Theorem ensureAll_pulls_only_missing base timeout required w :
  (forall body,
      body ∈ pull_calls (trace_of (ensureAll B base timeout required) w) ->
      exists have m,
        result_of (listModels B base timeout) w = inr have /\
        body = pull_body m /\ m ∈ required /\ (m ∉ have)) /\
  (forall err,
      result_of (listModels B base timeout) w = inl err ->
      result_of (ensureAll B base timeout required) w = Some err /\
      pull_calls (trace_of (ensureAll B base timeout required) w) = []).
Proof.
  unfold ensureAll. rewrite trace_of_bind, result_of_bind.
  pose proof (listModels_trace B base timeout w) as Hl.
  unfold trace_of at 1 3. rewrite Hl.
  fold (result_of (listModels B base timeout) w).
  destruct (result_of (listModels B base timeout) w) as [err|have].
  - split.
    + intros body Hin. simpl in Hin. inversion Hin.
    + intros err' [= <-]. split; reflexivity.
  - split; [|discriminate].
    intros body Hin.
    destruct (pullAll_run B base timeout (missingOf have required)
                (world_of (listModels B base timeout) w)) as [attempted [Hrun Hpc]].
    apply (pull_run_shape B) in Hrun as [[rest Hpre] _].
    rewrite pull_calls_app in Hin.
    change (pull_calls [EList (base +:+ "/api/tags") (inr have)]) with (@nil string) in Hin.
    rewrite app_nil_l, Hpc in Hin.
    apply list_elem_of_fmap in Hin as [m [-> Hm]].
    exists have, m. split; [reflexivity|]. split; [reflexivity|].
    assert (Hmiss : m ∈ missingOf have required).
    { rewrite Hpre. apply elem_of_app. left. exact Hm. }
    rewrite missingOf_filter in Hmiss.
    apply list_elem_of_filter in Hmiss as [Hout Hreq]. split; assumption.
Qed.

End InventoryMore.

(** ** What the retry loop returns *)

Section RetryLoopMore.
Context {W : Type} (B : Backend W).
Implicit Types (w : W) (base : string) (required : list string).

Lemma loop_run_error_origin base reqTimeout required deadline last t err :
  loop_run B base reqTimeout required deadline last t (Returned (Some err)) ->
  (exists tn, t = [ENow tn] /\
              err = match last with None => ErrNew "startup timeout" | Some e => e end) \/
  (exists pre e tn,
      t = pre ++ [EPing (base +:+ "/api/tags") (Some e); ESleep (2 * second); ENow tn] /\
      err = ErrWrap "ollama not responding: " e) \/
  (exists pre w_e e tn,
      t = pre ++ trace_of (ensureAll B base reqTimeout required) w_e
              ++ [ESleep (2 * second); ENow tn] /\
      result_of (ensureAll B base reqTimeout required) w_e = Some e /\
      err = ErrWrap "ensure models: " e).
Proof.
  remember (Returned (Some err)) as out eqn:Hout.
  induction 1 as [last|last tn Hpast|last tn e rest out Hle Hrun IH
                 |last tn w2 e rest out Hle He Hrun IH|last tn w2 Hle He];
    try discriminate.
  - injection Hout as ->. left. exists tn. split; reflexivity.
  - right. destruct (IH Hout) as [[tn' [-> ->]]|[[pre [e' [tn' [-> ->]]]]|
                                  [pre [w_e [e' [tn' [-> [He' ->]]]]]]]].
    + left. exists [ENow tn], e, tn'. split; reflexivity.
    + left. exists (ENow tn :: EPing (base +:+ "/api/tags") (Some e)
                      :: ESleep (2 * second) :: pre), e', tn'.
      split; reflexivity.
    + right. exists (ENow tn :: EPing (base +:+ "/api/tags") (Some e)
                       :: ESleep (2 * second) :: pre), w_e, e', tn'.
      split; [reflexivity|]. split; [exact He'|reflexivity].
  - right. destruct (IH Hout) as [[tn' [-> ->]]|[[pre [e' [tn' [-> ->]]]]|
                                  [pre [w_e [e' [tn' [-> [He' ->]]]]]]]].
    + right. exists [ENow tn; EPing (base +:+ "/api/tags") None], w2, e, tn'.
      split; [reflexivity|]. split; [exact He|reflexivity].
    + left. exists (ENow tn :: EPing (base +:+ "/api/tags") None
                      :: trace_of (ensureAll B base reqTimeout required) w2
                      ++ ESleep (2 * second) :: pre), e', tn'.
      split; [|reflexivity]. simpl. rewrite <- app_assoc. reflexivity.
    + right. exists (ENow tn :: EPing (base +:+ "/api/tags") None
                       :: trace_of (ensureAll B base reqTimeout required) w2
                       ++ ESleep (2 * second) :: pre), w_e, e', tn'.
      split; [|split; [exact He'|reflexivity]]. simpl. rewrite <- app_assoc. reflexivity.
Qed.

(** X7.  The error [waitUntilReady] returns is of one of three kinds, and
    the end of the trace tells which: "startup timeout" when no request
    was ever made; the error of the probe made last, wrapped with "ollama
    not responding: "; or the error of the ensure attempt made last,
    wrapped with "ensure models: ".  In the last two cases the run ends
    with that failed attempt, the pause and the clock reading past the
    deadline. *)
Theorem waitUntilReady_error_origin fuel base reqTimeout startupLimit required w err :
  result_of (waitUntilReady B fuel base reqTimeout startupLimit required) w
  = Returned (Some err) ->
  (err = ErrNew "startup timeout" /\
   exists tn, trace_of (waitUntilReady B fuel base reqTimeout startupLimit required) w
              = [ENow (time_Now B w).1; ENow tn]) \/
  (exists pre e tn,
      trace_of (waitUntilReady B fuel base reqTimeout startupLimit required) w
      = pre ++ [EPing (base +:+ "/api/tags") (Some e); ESleep (2 * second); ENow tn] /\
      err = ErrWrap "ollama not responding: " e) \/
  (exists pre w_e e tn,
      trace_of (waitUntilReady B fuel base reqTimeout startupLimit required) w
      = pre ++ trace_of (ensureAll B base reqTimeout required) w_e
            ++ [ESleep (2 * second); ENow tn] /\
      result_of (ensureAll B base reqTimeout required) w_e = Some e /\
      err = ErrWrap "ensure models: " e).
Proof.
  intros Herr.
  pose proof (retryLoop_run B fuel base reqTimeout required
                ((time_Now B w).1 + startupLimit) None (time_Now B w).2) as Hrun.
  revert Herr. unfold waitUntilReady.
  rewrite trace_of_bind, result_of_bind.
  destruct (now_run B w) as [Hr [Hw Ht]]. rewrite Hr, Hw, Ht.
  intros Herr. rewrite Herr in Hrun.
  apply loop_run_error_origin in Hrun
    as [[tn [-> ->]]|[[pre [e [tn [-> ->]]]]|[pre [w_e [e [tn [-> [He ->]]]]]]]].
  - left. split; [reflexivity|]. exists tn. reflexivity.
  - right. left. exists (ENow (time_Now B w).1 :: pre), e, tn. split; reflexivity.
  - right. right. exists (ENow (time_Now B w).1 :: pre), w_e, e, tn.
    split; [reflexivity|]. split; [exact He|reflexivity].
Qed.

(** X8.  With a negative startup limit, on a clock that does not run
    backwards between its first two readings, [waitUntilReady] fails at
    its first deadline check with "startup timeout": it makes no request
    and takes no pause. *)
Theorem waitUntilReady_negative_limit fuel base reqTimeout startupLimit required w :
  startupLimit < 0 ->
  (time_Now B w).1 <= (time_Now B (time_Now B w).2).1 ->
  waitUntilReady B (S fuel) base reqTimeout startupLimit required w
  = (Returned (Some (ErrNew "startup timeout")),
     (time_Now B (time_Now B w).2).2,
     [ENow (time_Now B w).1; ENow (time_Now B (time_Now B w).2).1]).
Proof.
  intros Hneg Hmono. unfold waitUntilReady, bind at 1, now at 1.
  destruct (time_Now B w) as [t0 w1] eqn:H0. cbn [fst snd] in *.
  rewrite (retryLoop_past_deadline B fuel base reqTimeout required
             (t0 + startupLimit) None w1) by lia.
  reflexivity.
Qed.

Lemma loop_run_ready_inv base reqTimeout required deadline last t :
  loop_run B base reqTimeout required deadline last t (Returned None) ->
  exists pre tn w_e,
    t = pre ++ ENow tn :: EPing (base +:+ "/api/tags") None
            :: trace_of (ensureAll B base reqTimeout required) w_e /\
    tn <= deadline /\
    result_of (ensureAll B base reqTimeout required) w_e = None.
Proof.
  remember (Returned None) as out eqn:Hout.
  induction 1 as [last|last tn Hpast|last tn e rest out Hle Hrun IH
                 |last tn w2 e rest out Hle He Hrun IH|last tn w2 Hle He];
    try discriminate.
  - destruct (IH Hout) as [pre [tn' [w_e [-> [Hle' He']]]]].
    exists (ENow tn :: EPing (base +:+ "/api/tags") (Some e) :: ESleep (2 * second) :: pre),
      tn', w_e.
    split; [reflexivity|]. split; assumption.
  - destruct (IH Hout) as [pre [tn' [w_e [-> [Hle' He']]]]].
    exists (ENow tn :: EPing (base +:+ "/api/tags") None
              :: trace_of (ensureAll B base reqTimeout required) w2
              ++ ESleep (2 * second) :: pre), tn', w_e.
    split; [|split; assumption]. simpl. rewrite <- app_assoc. reflexivity.
  - exists [], tn, w2. split; [reflexivity|]. split; assumption.
Qed.

(** X9.  What a return of [nil] stands for: the run ends with an
    iteration whose deadline check passed, whose probe succeeded and whose
    ensure attempt got an inventory and then one successful retrieval for
    each required model the inventory did not hold, and nothing else.
    The inventory is not queried again after the retrievals. *)
Theorem waitUntilReady_nil_means fuel base reqTimeout startupLimit required w :
  result_of (waitUntilReady B fuel base reqTimeout startupLimit required) w
  = Returned None ->
  exists pre tn w_e have,
    trace_of (waitUntilReady B fuel base reqTimeout startupLimit required) w
    = pre ++ ENow tn :: EPing (base +:+ "/api/tags") None
          :: trace_of (ensureAll B base reqTimeout required) w_e /\
    tn <= (time_Now B w).1 + startupLimit /\
    result_of (listModels B base reqTimeout) w_e = inr have /\
    result_of (ensureAll B base reqTimeout required) w_e = None /\
    exists body,
      trace_of (ensureAll B base reqTimeout required) w_e
      = EList (base +:+ "/api/tags") (inr have) :: body /\
      Forall (fun e => is_pull_event e = true) body /\
      pull_calls body = pull_body <$> filter (fun need => need ∉ have) required.
Proof.
  intros Hnil.
  pose proof (retryLoop_run B fuel base reqTimeout required
                ((time_Now B w).1 + startupLimit) None (time_Now B w).2) as Hrun.
  revert Hnil. unfold waitUntilReady.
  rewrite trace_of_bind, result_of_bind.
  destruct (now_run B w) as [Hr [Hw Ht]]. rewrite Hr, Hw, Ht.
  intros Hnil. rewrite Hnil in Hrun.
  apply loop_run_ready_inv in Hrun as [pre [tn [w_e [-> [Hle He]]]]].
  destruct (result_of (listModels B base reqTimeout) w_e) as [err|have] eqn:Hlist.
  { exfalso. revert He. unfold ensureAll. rewrite result_of_bind, Hlist. discriminate. }
  exists (ENow (time_Now B w).1 :: pre), tn, w_e, have.
  split; [reflexivity|]. split; [exact Hle|]. split; [exact Hlist|].
  split; [exact He|].
  revert He. unfold ensureAll. rewrite result_of_bind, trace_of_bind, Hlist.
  pose proof (listModels_trace B base reqTimeout w_e) as Hl.
  unfold trace_of at 1. rewrite Hl.
  fold (result_of (listModels B base reqTimeout) w_e). rewrite Hlist.
  intros He.
  destruct (pullAll_run B base reqTimeout (missingOf have required)
              (world_of (listModels B base reqTimeout) w_e)) as [attempted [Hrun Hpc]].
  apply (pull_run_shape B) in Hrun as [_ Hall]. rewrite He in Hall.
  eexists. split; [reflexivity|]. split; [apply pullAll_events|].
  rewrite Hpc, Hall, missingOf_filter. reflexivity.
Qed.

End RetryLoopMore.

(** ** The number of probes *)

Section Bounded.
Context {W : Type} (B : Backend W) (clock : W -> Z).
Hypothesis now_reads_clock :
  forall w, clock w <= (time_Now B w).1 /\ clock w <= clock (time_Now B w).2.
Hypothesis sleep_advances :
  forall d w, clock w + d <= clock (time_Sleep B d w).
Hypothesis get_tags_monotone :
  forall url timeout w, clock w <= clock (get_tags B url timeout w).2.
Hypothesis post_pull_monotone :
  forall url timeout body w, clock w <= clock (post_pull B url timeout body w).2.

Lemma probe_calls_app t1 t2 :
  probe_calls (t1 ++ t2) = probe_calls t1 ++ probe_calls t2.
Proof. apply omap_app. Qed.

Lemma probe_calls_pull_events t :
  Forall (fun e => is_pull_event e = true) t -> probe_calls t = [].
Proof.
  induction 1 as [|e t He Ht IH]; [reflexivity|].
  destruct e; try discriminate; exact IH.
Qed.

Lemma probe_calls_ensureAll base timeout required (w : W) :
  probe_calls (trace_of (ensureAll B base timeout required) w) = [].
Proof.
  destruct (ensureAll_events B base timeout required w) as [r [body [-> Hbody]]].
  exact (probe_calls_pull_events body Hbody).
Qed.

Lemma retryLoop_probes_bounded fuel n base reqTimeout required deadline last (w : W) :
  deadline < clock w + 2 * second * Z.of_nat n ->
  (length (probe_calls
             (trace_of (retryLoop B fuel base reqTimeout required deadline last) w))
   <= n)%nat.
Proof.
  revert n last w. induction fuel as [|fuel IH]; intros n last w Hbound.
  - simpl. lia.
  - rewrite retryLoop_S, trace_of_bind.
    destruct (now_run B w) as [Hr [Hw Ht]]. rewrite Hr, Hw, Ht. clear Hr Hw Ht.
    destruct (now_reads_clock w) as [Hread Hafter].
    destruct (decide (deadline < (time_Now B w).1)) as [Hpast|Hnot]; [simpl; lia|].
    destruct n as [|n]; [lia|].
    rewrite trace_of_bind, pingOllama_trace.
    pose proof (pingOllama_monotone B clock get_tags_monotone base reqTimeout
                  (time_Now B w).2) as Hping.
    destruct (result_of (pingOllama B base reqTimeout) (time_Now B w).2) as [err|].
    + rewrite trace_of_bind, sleep_trace.
      change (world_of (sleep B (2 * second)) ?w0) with (time_Sleep B (2 * second) w0).
      pose proof (sleep_advances (2 * second)
                    (world_of (pingOllama B base reqTimeout) (time_Now B w).2)) as Hs.
      match goal with
      | |- context [trace_of (retryLoop B fuel _ _ _ _ ?l) ?w0] =>
          specialize (IH n l w0 ltac:(lia))
      end.
      simpl. lia.
    + rewrite trace_of_bind.
      pose proof (ensureAll_monotone B clock get_tags_monotone post_pull_monotone
                    base reqTimeout required
                    (world_of (pingOllama B base reqTimeout) (time_Now B w).2)) as Hens.
      pose proof (probe_calls_ensureAll base reqTimeout required
                    (world_of (pingOllama B base reqTimeout) (time_Now B w).2)) as Hnone.
      destruct (result_of (ensureAll B base reqTimeout required) _) as [err|].
      * rewrite trace_of_bind, sleep_trace.
        change (world_of (sleep B (2 * second)) ?w0) with (time_Sleep B (2 * second) w0).
        pose proof (sleep_advances (2 * second)
                      (world_of (ensureAll B base reqTimeout required)
                         (world_of (pingOllama B base reqTimeout) (time_Now B w).2)))
          as Hs.
        match goal with
        | |- context [trace_of (retryLoop B fuel _ _ _ _ ?l) ?w0] =>
            specialize (IH n l w0 ltac:(lia))
        end.
        rewrite !probe_calls_app, Hnone. simpl. lia.
      * rewrite !probe_calls_app, Hnone. simpl. lia.
Qed.

(** X10.  On a backend whose clock never runs backwards, where
    [time.Now] does not read less than the clock and [time.Sleep] lets at
    least the requested time pass, a startup limit below [n] times two
    seconds bounds the run: [waitUntilReady] returns within [n + 1]
    iterations, and however many iterations its run is given it makes at
    most [n] probes. *)
Theorem waitUntilReady_probes_bounded n base reqTimeout startupLimit required (w : W) :
  startupLimit < 2 * second * Z.of_nat n ->
  (time_Now B w).1 <= clock (time_Now B w).2 ->
  (exists r,
      result_of (waitUntilReady B (S n) base reqTimeout startupLimit required) w
      = Returned r) /\
  (forall fuel,
      (length (probe_calls
                 (trace_of (waitUntilReady B fuel base reqTimeout startupLimit required) w))
       <= n)%nat).
Proof.
  intros Hn Hread. split.
  - exact (waitUntilReady_returns B clock now_reads_clock sleep_advances
             get_tags_monotone post_pull_monotone n base reqTimeout startupLimit
             required w Hn Hread).
  - intros fuel. unfold waitUntilReady. rewrite trace_of_bind.
    destruct (now_run B w) as [Hr [Hw Ht]]. rewrite Hr, Hw, Ht.
    rewrite probe_calls_app. simpl.
    apply retryLoop_probes_bounded. lia.
Qed.

End Bounded.

Lemma waitUntilReady_probes_bounded_witness :
  (length (probe_calls
             (trace_of (waitUntilReady scripted 9 "http://ollama:11434" (30 * second)
                          (3 * second) ["a"]) canceled_world)) <= 2)%nat.
Proof.
  refine (proj2 (waitUntilReady_probes_bounded scripted clock _ _ _ _ 2
                   "http://ollama:11434" (30 * second) (3 * second) ["a"]
                   canceled_world _ _) 9%nat).
  - intros w0. simpl. lia.
  - intros d w0. simpl. lia.
  - intros url timeout w0. simpl. destruct (tags_replies w0); simpl; lia.
  - intros url timeout body w0. simpl. destruct (pull_replies w0); simpl; lia.
  - unfold second. lia.
  - simpl. lia.
Defined.

(** ** A backend that comes up late *)

Section Flaky.
Variables (base : string) (reqTimeout : Z) (required : list string).
Variables (e : error) (names : list string).






End Flaky.



(** ** parseModels *)

Section ParseModels.
Context (R : Runtime).

Lemma keepNonEmpty_acc (fields acc : list string) :
  foldl (fun out f =>
           let f := strings_TrimSpace R f in
           if decide (f = "") then out else out ++ [f])
        acc fields
  = acc ++ filter (fun f => f <> "") (strings_TrimSpace R <$> fields).
Proof.
  revert acc. induction fields as [|f fields IH]; intros acc.
  - simpl. rewrite app_nil_r. reflexivity.
  - rewrite fmap_cons. cbn [foldl]. rewrite IH.
    destruct (decide (strings_TrimSpace R f = "")) as [He|He].
    + rewrite filter_cons_False by (intros Hn; exact (Hn He)). reflexivity.
    + rewrite filter_cons_True by assumption. rewrite <- app_assoc. reflexivity.
Qed.

Lemma keepNonEmpty_filter (fields : list string) :
  Load.keepNonEmpty R fields
  = filter (fun f => f <> "") (strings_TrimSpace R <$> fields).
Proof. unfold Load.keepNonEmpty. rewrite keepNonEmpty_acc. reflexivity. Qed.

(** X13.  The list [parseModels] of [load.go] returns is never empty and
    holds no empty entry: it is the fields of the trimmed input with its
    commas turned into spaces, each trimmed, the empty ones left out, in
    order (repeated entries are kept).  This holds whatever the library
    functions give. *)
Theorem load_parseModels_entries raw models :
  Load.parseModels R raw = inr models ->
  models <> [] /\
  Forall (fun m => m <> "") models /\
  models = filter (fun f => f <> "")
             (strings_TrimSpace R
                <$> strings_Fields R (Probe.replace_commas (strings_TrimSpace R raw))).
Proof.
  unfold Load.parseModels.
  destruct (decide (strings_TrimSpace R raw = "")) as [He|He]; [discriminate|].
  destruct (decide (length (Load.keepNonEmpty R
              (strings_Fields R (Probe.replace_commas (strings_TrimSpace R raw)))) = 0%nat))
    as [Hl|Hl]; [discriminate|].
  intros [= <-]. split.
  - intros Hnil. apply Hl. rewrite Hnil. reflexivity.
  - rewrite keepNonEmpty_filter. split; [|reflexivity].
    apply Forall_forall. intros m Hm. apply list_elem_of_filter in Hm as [Hne _].
    exact Hne.
Qed.

Lemma keepNonEmpty_id (fields : list string) :
  Forall (fun f => strings_TrimSpace R f = f /\ f <> "") fields ->
  Load.keepNonEmpty R fields = fields.
Proof.
  intros Hfields. rewrite keepNonEmpty_filter.
  induction Hfields as [|f fields [Hf Hne] Hall IH]; [reflexivity|].
  rewrite fmap_cons, Hf. rewrite filter_cons_True by assumption.
  rewrite IH. reflexivity.
Qed.

(** X14.  The two entry points read the list of models alike: when the
    library gives fields that are not empty and that trimming leaves
    unchanged, and no field for an input that trims to nothing,
    [parseModels] of [load.go] and [parseModels] of [probe.go] accept the
    same inputs and return the same list. *)
Theorem parseModels_agree raw models :
  Forall (fun f => strings_TrimSpace R f = f /\ f <> "")
         (strings_Fields R (Probe.replace_commas (strings_TrimSpace R raw))) ->
  (strings_TrimSpace R raw = "" ->
   strings_Fields R (Probe.replace_commas (strings_TrimSpace R raw)) = []) ->
  Load.parseModels R raw = inr models <-> Probe.parseModels R raw = inr models.
Proof.
  intros Hfields Hempty.
  assert (Hkeep : Load.keepNonEmpty R
                    (strings_Fields R (Probe.replace_commas (strings_TrimSpace R raw)))
                  = strings_Fields R (Probe.replace_commas (strings_TrimSpace R raw))).
  { apply keepNonEmpty_id. exact Hfields. }
  unfold Load.parseModels, Probe.parseModels. rewrite Hkeep.
  destruct (decide (strings_TrimSpace R raw = "")) as [He|He].
  - rewrite (Hempty He). simpl. split; discriminate.
  - destruct (decide (length (strings_Fields R
                 (Probe.replace_commas (strings_TrimSpace R raw))) = 0%nat));
      [split; discriminate|reflexivity].
Qed.

End ParseModels.

Lemma load_parseModels_entries_witness :
  Load.parseModels (ascii_runtime []) " a, ,b " = inr ["a"; "b"] /\
  Forall (fun m : string => m <> "") ["a"; "b"].
Proof.
  assert (H : Load.parseModels (ascii_runtime []) " a, ,b " = inr ["a"; "b"])
    by (vm_compute; reflexivity).
  split; [exact H|].
  exact (proj1 (proj2 (load_parseModels_entries (ascii_runtime []) " a, ,b "
                         ["a"; "b"] H))).
Defined.

Lemma parseModels_agree_witness :
  Load.parseModels (ascii_runtime []) " a, ,b " = inr ["a"; "b"] <->
  Probe.parseModels (ascii_runtime []) " a, ,b " = inr ["a"; "b"].
Proof.
  apply (parseModels_agree (ascii_runtime []) " a, ,b " ["a"; "b"]).
  - vm_compute. repeat constructor; discriminate.
  - vm_compute. discriminate.
Defined.

(** ** The entry point of the gate *)

Section LoadMain.
Context (R : Runtime) {W : Type} (B : Backend W).
Implicit Types (w : W).

Lemma log_lines_app t1 t2 : log_lines (t1 ++ t2) = log_lines t1 ++ log_lines t2.
Proof. apply omap_app. Qed.

Lemma pullLoop_log_lines model recs w :
  Forall engine_line (log_lines (pullLoop model recs w).2).
Proof.
  induction recs as [|[ev|e] recs IH].
  - constructor.
  - destruct (decide (Error ev = "")) as [He|He].
    + assert (Hrec : Forall engine_line (log_lines (record_trace model (DecEvent ev)))).
      { unfold record_trace, status_log.
        destruct (decide (Status ev = "")); simpl; [constructor|].
        constructor; [|constructor]. eexists. reflexivity. }
      destruct (decide (Status ev = "success")) as [Hs|Hs].
      * rewrite pullLoop_success by assumption. exact Hrec.
      * rewrite pullLoop_quiet by (split; assumption). cbn [snd].
        rewrite log_lines_app. apply Forall_app. split; [exact Hrec|exact IH].
    + rewrite pullLoop_error by assumption. constructor.
  - constructor.
Qed.

Lemma pullModel_log_lines base timeout model w :
  Forall engine_line (log_lines (trace_of (pullModel B base timeout model) w)).
Proof.
  unfold trace_of, pullModel, bind.
  destruct (post_pull B (base +:+ "/api/pull") timeout (pull_body model) w)
    as [[err|resp] w1]; [constructor|].
  destruct (decide (Z.quot (pStatusCode resp) 100 = 2)); [|constructor].
  pose proof (pullLoop_log_lines model (pRecords resp) w1) as Hl.
  destruct (pullLoop model (pRecords resp) w1) as [[r w2] t2]. exact Hl.
Qed.

Lemma pullAll_log_lines base timeout missing w :
  Forall engine_line (log_lines (trace_of (pullAll B base timeout missing) w)).
Proof.
  revert w. induction missing as [|m rest IH]; intros w; [constructor|].
  cbn [pullAll]. rewrite trace_of_bind, log_lines_app. apply Forall_app. split.
  - constructor; [|constructor]. eexists. reflexivity.
  - rewrite trace_of_bind, log_lines_app. apply Forall_app.
    split; [apply pullModel_log_lines|].
    destruct (result_of (pullModel B base timeout m) _); [constructor|apply IH].
Qed.

Lemma ensureAll_log_lines base timeout required w :
  Forall engine_line (log_lines (trace_of (ensureAll B base timeout required) w)).
Proof.
  unfold ensureAll. rewrite trace_of_bind, log_lines_app.
  pose proof (listModels_trace B base timeout w) as Hl.
  unfold trace_of at 1. rewrite Hl. apply Forall_app. split; [constructor|].
  destruct (result_of (listModels B base timeout) w); [constructor|apply pullAll_log_lines].
Qed.

Lemma retryLoop_log_lines fuel base reqTimeout required deadline last w :
  Forall engine_line
    (log_lines (trace_of (retryLoop B fuel base reqTimeout required deadline last) w)).
Proof.
  revert last w. induction fuel as [|fuel IH]; intros last w; [constructor|].
  rewrite retryLoop_S, trace_of_bind, log_lines_app.
  destruct (now_run B w) as [Hr [Hw Ht]]. rewrite Hr, Hw, Ht.
  apply Forall_app. split; [constructor|].
  destruct (decide (deadline < (time_Now B w).1)); [constructor|].
  rewrite trace_of_bind, log_lines_app, pingOllama_trace.
  apply Forall_app. split; [constructor|].
  destruct (result_of (pingOllama B base reqTimeout) (time_Now B w).2) as [err|].
  - rewrite trace_of_bind, log_lines_app. apply Forall_app. split; [constructor|apply IH].
  - rewrite trace_of_bind, log_lines_app. apply Forall_app.
    split; [apply ensureAll_log_lines|].
    destruct (result_of (ensureAll B base reqTimeout required) _) as [err|].
    + rewrite trace_of_bind, log_lines_app. apply Forall_app.
      split; [constructor|apply IH].
    + constructor.
Qed.

Lemma waitUntilReady_log_lines fuel base reqTimeout startupLimit required w :
  Forall engine_line
    (log_lines (trace_of (waitUntilReady B fuel base reqTimeout startupLimit required) w)).
Proof.
  unfold waitUntilReady. rewrite trace_of_bind, log_lines_app.
  destruct (now_run B w) as [Hr [Hw Ht]]. rewrite Hr, Hw, Ht.
  apply Forall_app. split; [constructor|apply retryLoop_log_lines].
Qed.

(** X15.  [main] of [load.go] logs "all required models present" exactly
    when it goes on to wait for the termination signal, and that line is
    then the last thing it does: the engine has returned [nil] just
    before.  When [main] ends in [log.Fatal] instead, either it has made
    no request at all (the environment did not pass validation) or the
    engine has returned the error that the line "startup failed: ..."
    quotes. *)
Theorem load_main_readiness_line fuel w :
  (result_of (Load.main R B fuel) w = Load.Blocked <->
   "all required models present" ∈ log_lines (trace_of (Load.main R B fuel) w)) /\
  (result_of (Load.main R B fuel) w = Load.Blocked ->
   exists ollama reqTimeout startupLimit required,
     result_of (waitUntilReady B fuel ollama reqTimeout startupLimit required) w
     = Returned None /\
     trace_of (Load.main R B fuel) w
     = trace_of (waitUntilReady B fuel ollama reqTimeout startupLimit required) w
         ++ [ELog "all required models present"]) /\
  (forall msg,
      result_of (Load.main R B fuel) w = Load.Fatal msg ->
      trace_of (Load.main R B fuel) w = [] \/
      exists ollama reqTimeout startupLimit required err,
        result_of (waitUntilReady B fuel ollama reqTimeout startupLimit required) w
        = Returned (Some err) /\
        msg = "startup failed: " +:+ error_msg err /\
        trace_of (Load.main R B fuel) w
        = trace_of (waitUntilReady B fuel ollama reqTimeout startupLimit required) w).
Proof.
  assert (Hnot : forall t, Forall engine_line t ->
                           ("all required models present" : string) ∉ t).
  { intros t Hall Hin. rewrite Forall_forall in Hall.
    destruct (Hall _ Hin) as [rest Hrest]. discriminate. }
  unfold Load.main.
  destruct (Load.requireEnv R "OLLAMA_BASE_URL") as [e|ollama];
    [split; [split; [discriminate|intros H; inversion H]|
             split; [discriminate|intros msg _; left; reflexivity]]|].
  destruct (Load.requireEnv R "REQUIRED_MODELS") as [e|raw];
    [split; [split; [discriminate|intros H; inversion H]|
             split; [discriminate|intros msg _; left; reflexivity]]|].
  destruct (Load.parseModels R raw) as [e|required];
    [split; [split; [discriminate|intros H; inversion H]|
             split; [discriminate|intros msg _; left; reflexivity]]|].
  destruct (Load.requireEnv R "REQUEST_TIMEOUT") as [e|rts];
    [split; [split; [discriminate|intros H; inversion H]|
             split; [discriminate|intros msg _; left; reflexivity]]|].
  destruct (Load.requireEnv R "STARTUP_TIMEOUT") as [e|sts];
    [split; [split; [discriminate|intros H; inversion H]|
             split; [discriminate|intros msg _; left; reflexivity]]|].
  destruct (Load.mustParseDuration R rts "REQUEST_TIMEOUT") as [e|reqTimeout];
    [split; [split; [discriminate|intros H; inversion H]|
             split; [discriminate|intros msg _; left; reflexivity]]|].
  destruct (Load.mustParseDuration R sts "STARTUP_TIMEOUT") as [e|startupLimit];
    [split; [split; [discriminate|intros H; inversion H]|
             split; [discriminate|intros msg _; left; reflexivity]]|].
  rewrite result_of_bind, trace_of_bind.
  pose proof (waitUntilReady_log_lines fuel ollama reqTimeout startupLimit required w)
    as Hlines.
  destruct (result_of (waitUntilReady B fuel ollama reqTimeout startupLimit required) w)
    as [[err|]|] eqn:Hres.
  - split; [split; [discriminate|]|split; [discriminate|]].
    + intros Hin. exfalso. revert Hin.
      change (trace_of (ret (Load.Fatal ("startup failed: " +:+ error_msg err))) ?w0)
        with (@nil Event).
      rewrite app_nil_r. apply Hnot. exact Hlines.
    + intros msg [= <-]. right.
      exists ollama, reqTimeout, startupLimit, required, err.
      split; [exact Hres|]. split; [reflexivity|].
      change (trace_of (ret (Load.Fatal ("startup failed: " +:+ error_msg err))) ?w0)
        with (@nil Event).
      rewrite app_nil_r. reflexivity.
  - split; [split|split].
    + intros _. rewrite log_lines_app. apply elem_of_app. right. left.
    + reflexivity.
    + intros _. exists ollama, reqTimeout, startupLimit, required.
      split; [exact Hres|reflexivity].
    + discriminate.
  - split; [split; [discriminate|]|split; [discriminate|discriminate]].
    intros Hin. exfalso. revert Hin.
    change (trace_of (ret Load.Cut) ?w0) with (@nil Event).
    rewrite app_nil_r. apply Hnot. exact Hlines.
Qed.

End LoadMain.

(** ** More on the one-shot probe *)

Section ProbeMore.
Context (R : Runtime) {W : Type} (B : Backend W).
Implicit Types (w : W) (have : gset string) (required : list string).

Lemma checkRequired_first_absent have pre need post :
  Forall (fun m => m ∈ have) pre ->
  need ∉ have ->
  Probe.checkRequired have (pre ++ need :: post)
  = Probe.mkExit 1 ["missing model: " +:+ need].
Proof.
  intros Hpre Hout. induction Hpre as [|m pre Hin Hpre IH]; simpl.
  - destruct (decide (need ∈ have)); [contradiction|reflexivity].
  - destruct (decide (m ∈ have)); [exact IH|contradiction].
Qed.

Lemma probe_main_run ollama required reqTimeout w :
  Probe.config R = Some (ollama, required, reqTimeout) ->
  result_of (Probe.main R B) w
  = match result_of (listModels B ollama reqTimeout) w with
    | inl err => Probe.mkExit 1 [error_msg err]
    | inr have => Probe.checkRequired have required
    end.
Proof.
  unfold Probe.config, Probe.main.
  destruct (Probe.requireEnv R "OLLAMA_BASE_URL") as [e|o]; [discriminate|].
  destruct (Probe.requireEnv R "REQUIRED_MODELS") as [e|raw]; [discriminate|].
  destruct (Probe.parseModels R raw) as [e|req]; [discriminate|].
  destruct (Probe.requireEnv R "REQUEST_TIMEOUT") as [e|ts]; [discriminate|].
  destruct (Probe.mustParseDuration R ts "REQUEST_TIMEOUT") as [e|t]; [discriminate|].
  intros [= <- <- <-]. rewrite result_of_bind.
  destruct (result_of (listModels B o t) w); reflexivity.
Qed.

(** X16.  The probe reports one model only: the first entry of the
    required list, in its order, that the inventory does not hold; the
    entries after it are not looked at. *)
Theorem probe_reports_first_missing ollama reqTimeout w have pre need post :
  Probe.config R = Some (ollama, pre ++ need :: post, reqTimeout) ->
  result_of (listModels B ollama reqTimeout) w = inr have ->
  Forall (fun m => m ∈ have) pre ->
  need ∉ have ->
  result_of (Probe.main R B) w = Probe.mkExit 1 ["missing model: " +:+ need].
Proof.
  intros Hconf Hlist Hpre Hout.
  rewrite (probe_main_run _ _ _ w Hconf), Hlist.
  apply checkRequired_first_absent; assumption.
Qed.

(** X17.  The probe and the orchestrator agree: with the configuration
    the probe runs with, the probe exits with status 0 and no output
    exactly when an ensure cycle started in the same world returns [nil]
    without sending a pull request. *)
Theorem probe_agrees_with_ensureAll ollama required reqTimeout w :
  Probe.config R = Some (ollama, required, reqTimeout) ->
  result_of (Probe.main R B) w = Probe.mkExit 0 [] <->
  result_of (ensureAll B ollama reqTimeout required) w = None /\
  pull_calls (trace_of (ensureAll B ollama reqTimeout required) w) = [].
Proof.
  intros Hconf. rewrite (probe_main_run _ _ _ w Hconf).
  destruct (result_of (listModels B ollama reqTimeout) w) as [err|have] eqn:Hlist.
  - split; [discriminate|]. intros [Hres _]. revert Hres.
    unfold ensureAll. rewrite result_of_bind, Hlist. discriminate.
  - destruct (decide (Forall (fun need => need ∈ have) required)) as [Hall|Hnot].
    + rewrite (checkRequired_present have required Hall).
      pose proof (ensureAll_satisfied B ollama reqTimeout required w have Hlist Hall)
        as He.
      unfold result_of, trace_of. rewrite He. split; auto.
    + destruct (checkRequired_absent have required Hnot) as [need [Hin [Hout ->]]].
      split; [discriminate|]. intros [Hres Hcalls]. exfalso. apply Hnot.
      revert Hres Hcalls. unfold ensureAll.
      rewrite result_of_bind, trace_of_bind, Hlist.
      pose proof (listModels_trace B ollama reqTimeout w) as Hl.
      unfold trace_of at 1. rewrite Hl.
      intros Hres Hcalls.
      destruct (pullAll_run B ollama reqTimeout (missingOf have required)
                  (world_of (listModels B ollama reqTimeout) w))
        as [attempted [Hrun Hpc]].
      apply (pull_run_shape B) in Hrun as [_ Hshape]. rewrite Hres in Hshape.
      rewrite pull_calls_app in Hcalls.
      apply app_eq_nil in Hcalls as [_ Hcalls]. rewrite Hpc, Hshape in Hcalls.
      apply fmap_nil_inv in Hcalls. rewrite missingOf_filter in Hcalls.
      apply Forall_forall. intros m Hm.
      destruct (decide (m ∈ have)) as [Hyes|Hno]; [exact Hyes|].
      exfalso. assert (Hf : m ∈ filter (fun need => need ∉ have) required)
        by (apply list_elem_of_filter; split; assumption).
      rewrite Hcalls in Hf. inversion Hf.
Qed.

End ProbeMore.

Lemma probe_reports_first_missing_witness :
  result_of (Probe.main (ascii_runtime gate_env) scripted) (mkScript 0 [tags_ok ["a"]] [])
  = Probe.mkExit 1 ["missing model: b"].
Proof.
  refine (probe_reports_first_missing (ascii_runtime gate_env) scripted
            "http://ollama:11434" (30 * second) (mkScript 0 [tags_ok ["a"]] [])
            ({["a"]} ∪ ∅) ["a"] "b" [] _ _ _ _).
  - vm_compute. reflexivity.
  - reflexivity.
  - constructor; [|constructor]. apply (bool_decide_unpack _). vm_compute. exact I.
  - apply (bool_decide_unpack _). vm_compute. exact I.
Defined.

Lemma probe_agrees_with_ensureAll_witness :
  result_of (Probe.main (ascii_runtime gate_env) scripted)
    (mkScript 0 [tags_ok ["b"; "a"]] []) = Probe.mkExit 0 [] <->
  result_of (ensureAll scripted "http://ollama:11434" (30 * second) ["a"; "b"])
    (mkScript 0 [tags_ok ["b"; "a"]] []) = None /\
  pull_calls (trace_of (ensureAll scripted "http://ollama:11434" (30 * second) ["a"; "b"])
                (mkScript 0 [tags_ok ["b"; "a"]] [])) = [].
Proof.
  apply (probe_agrees_with_ensureAll (ascii_runtime gate_env) scripted
           "http://ollama:11434" ["a"; "b"] (30 * second)).
  vm_compute. reflexivity.
Defined.

(** ** Runs of the further properties on the scripted backend *)

Lemma pullModel_rejected_status_witness :
  exists b tail,
    result_of (pullModel scripted "http://ollama:11434" (30 * second) "c")
      (mkScript 0 [] [inr (mkPullHTTP 500 "no such model" [event "success" ""])])
    = Some (ErrNew ("pull " +:+ "c" +:+ " failed: status " +:+ fmt_d 500 +:+ ": " +:+ b)) /\
    "no such model" = b +:+ tail /\
    Z.of_nat (String.length b) <= 8192 /\
    (Z.of_nat (String.length "no such model") <= 8192 -> b = "no such model") /\
    decode_calls (trace_of (pullModel scripted "http://ollama:11434" (30 * second) "c")
                    (mkScript 0 [] [inr (mkPullHTTP 500 "no such model"
                                           [event "success" ""])])) = [] /\
    world_of (pullModel scripted "http://ollama:11434" (30 * second) "c")
      (mkScript 0 [] [inr (mkPullHTTP 500 "no such model" [event "success" ""])])
    = mkScript 0 [] [].
Proof.
  refine (pullModel_rejected_status scripted "http://ollama:11434" (30 * second) "c"
            (mkScript 0 [] [inr (mkPullHTTP 500 "no such model" [event "success" ""])])
            (mkScript 0 [] [])
            (mkPullHTTP 500 "no such model" [event "success" ""]) _ _).
  - reflexivity.
  - simpl. lia.
Defined.

Lemma pullModel_malformed_record_witness :
  result_of (pullModel scripted "http://ollama:11434" (30 * second) "b")
    (mkScript 0 [] [pull_ok [event "pulling" ""; DecError (ErrNew "invalid character");
                             event "success" ""]])
  = Some (ErrWrap "pull b: decode: " (ErrNew "invalid character")).
Proof.
  refine (proj1 (pullModel_malformed_record scripted "http://ollama:11434" (30 * second) "b"
            (mkScript 0 [] [pull_ok [event "pulling" "";
                                     DecError (ErrNew "invalid character");
                                     event "success" ""]])
            (mkScript 0 [] [])
            (mkPullHTTP 200 "" [event "pulling" ""; DecError (ErrNew "invalid character");
                                event "success" ""])
            [event "pulling" ""] (ErrNew "invalid character") [event "success" ""]
            _ _ _ _)).
  - reflexivity.
  - simpl. lia.
  - reflexivity.
  - repeat constructor; discriminate.
Defined.

Lemma listModels_set_of_names_witness :
  exists resp names,
    (get_tags scripted ("http://ollama:11434" +:+ "/api/tags") (30 * second)
       (mkScript 0 [tags_ok ["a"; "b"; "a"]] [])).1 = inr resp /\
    tStatusCode resp < 400 /\
    tModels resp = inr names /\
    forall name, name ∈ ({["a"]} ∪ ({["b"]} ∪ ({["a"]} ∪ ∅)) : gset string)
                 <-> name ∈ names.
Proof.
  exact (listModels_set_of_names scripted "http://ollama:11434" (30 * second)
           (mkScript 0 [tags_ok ["a"; "b"; "a"]] [])
           ({["a"]} ∪ ({["b"]} ∪ ({["a"]} ∪ ∅))) eq_refl).
Defined.

Lemma waitUntilReady_negative_limit_witness :
  waitUntilReady scripted 4 "http://ollama:11434" (30 * second) (- second) ["a"] ready_world
  = (Returned (Some (ErrNew "startup timeout")), ready_world, [ENow 0; ENow 0]).
Proof.
  refine (waitUntilReady_negative_limit scripted 3 "http://ollama:11434" (30 * second)
            (- second) ["a"] ready_world _ _).
  - unfold second. lia.
  - simpl. lia.
Defined.

Lemma waitUntilReady_error_origin_witness :
  (ErrWrap "ollama not responding: " canceled_request = ErrNew "startup timeout" /\
   exists tn,
     trace_of (waitUntilReady scripted 5 "http://ollama:11434" (30 * second) (3 * second)
                 ["a"]) canceled_world
     = [ENow (time_Now scripted canceled_world).1; ENow tn]) \/
  (exists pre e tn,
      trace_of (waitUntilReady scripted 5 "http://ollama:11434" (30 * second) (3 * second)
                  ["a"]) canceled_world
      = pre ++ [EPing ("http://ollama:11434" +:+ "/api/tags") (Some e);
                ESleep (2 * second); ENow tn] /\
      ErrWrap "ollama not responding: " canceled_request
      = ErrWrap "ollama not responding: " e) \/
  (exists pre w_e e tn,
      trace_of (waitUntilReady scripted 5 "http://ollama:11434" (30 * second) (3 * second)
                  ["a"]) canceled_world
      = pre ++ trace_of (ensureAll scripted "http://ollama:11434" (30 * second) ["a"]) w_e
            ++ [ESleep (2 * second); ENow tn] /\
      result_of (ensureAll scripted "http://ollama:11434" (30 * second) ["a"]) w_e = Some e /\
      ErrWrap "ollama not responding: " canceled_request = ErrWrap "ensure models: " e).
Proof.
  refine (waitUntilReady_error_origin scripted 5 "http://ollama:11434" (30 * second)
            (3 * second) ["a"] canceled_world
            (ErrWrap "ollama not responding: " canceled_request) _).
  vm_compute. reflexivity.
Defined.

Lemma waitUntilReady_nil_means_witness :
  exists pre tn w_e have,
    trace_of (waitUntilReady scripted 3 "http://ollama:11434" (30 * second) (60 * second)
                ["a"; "b"]) example_world
    = pre ++ ENow tn :: EPing ("http://ollama:11434" +:+ "/api/tags") None
          :: trace_of (ensureAll scripted "http://ollama:11434" (30 * second) ["a"; "b"]) w_e /\
    tn <= (time_Now scripted example_world).1 + 60 * second /\
    result_of (listModels scripted "http://ollama:11434" (30 * second)) w_e = inr have /\
    result_of (ensureAll scripted "http://ollama:11434" (30 * second) ["a"; "b"]) w_e = None /\
    exists body,
      trace_of (ensureAll scripted "http://ollama:11434" (30 * second) ["a"; "b"]) w_e
      = EList ("http://ollama:11434" +:+ "/api/tags") (inr have) :: body /\
      Forall (fun e => is_pull_event e = true) body /\
      pull_calls body = pull_body <$> filter (fun need => need ∉ have) ["a"; "b"].
Proof.
  refine (waitUntilReady_nil_means scripted 3 "http://ollama:11434" (30 * second)
            (60 * second) ["a"; "b"] example_world _).
  vm_compute. reflexivity.
Defined.

(** The gate on the section 8 example, and on an environment without a
    startup limit. *)
Example load_main_example :
  result_of (Load.main (ascii_runtime gate_env) scripted 3) example_world = Load.Blocked /\
  log_lines (trace_of (Load.main (ascii_runtime gate_env) scripted 3) example_world)
  = ["pulling missing model: b"; "pull b: pulling"; "pull b: verifying";
     "pull b: success"; "all required models present"].
Proof. vm_compute. split; reflexivity. Qed.

Example load_main_unset :
  Load.main (ascii_runtime probe_env) scripted 3 example_world
  = (Load.Fatal "required env STARTUP_TIMEOUT not set", example_world, []).
Proof. vm_compute. reflexivity. Qed.

(** ** The pauses of the retry loop *)

Section Pauses.
Context {W : Type} (B : Backend W).
Implicit Types (w : W) (base : string) (required : list string).

Lemma sleep_calls_app t1 t2 : sleep_calls (t1 ++ t2) = sleep_calls t1 ++ sleep_calls t2.
Proof. apply omap_app. Qed.

Lemma sleep_calls_ensureAll base timeout required w :
  sleep_calls (trace_of (ensureAll B base timeout required) w) = [].
Proof.
  destruct (ensureAll_events B base timeout required w) as [r [body [-> Hbody]]].
  change (sleep_calls (EList (base +:+ "/api/tags") r :: body)) with (sleep_calls body).
  induction Hbody as [|e t He Ht IH]; [reflexivity|].
  destruct e; try discriminate; exact IH.
Qed.

Lemma loop_run_pauses base reqTimeout required deadline last t out :
  loop_run B base reqTimeout required deadline last t out ->
  sleep_calls t = replicate (length (sleep_calls t)) (2 * second) /\
  (length (sleep_calls t) + ready_count out = length (probe_calls t))%nat.
Proof.
  induction 1 as [last|last tn Hpast|last tn e rest out Hle Hrun [IH1 IH2]
                 |last tn w2 e rest out Hle He Hrun [IH1 IH2]|last tn w2 Hle He].
  - split; reflexivity.
  - split; reflexivity.
  - split.
    + change (2 * second :: sleep_calls rest
              = 2 * second :: replicate (length (sleep_calls rest)) (2 * second)).
      rewrite <- IH1. reflexivity.
    + change (S (length (sleep_calls rest)) + ready_count out
              = S (length (probe_calls rest)))%nat.
      lia.
  - change (ENow tn :: EPing (base +:+ "/api/tags") None
              :: trace_of (ensureAll B base reqTimeout required) w2
              ++ ESleep (2 * second) :: rest)
      with ([ENow tn; EPing (base +:+ "/api/tags") None]
              ++ trace_of (ensureAll B base reqTimeout required) w2
              ++ ESleep (2 * second) :: rest).
    rewrite !sleep_calls_app, !probe_calls_app.
    rewrite sleep_calls_ensureAll, (probe_calls_ensureAll B). split.
    + change (2 * second :: sleep_calls rest
              = 2 * second :: replicate (length (sleep_calls rest)) (2 * second)).
      rewrite <- IH1. reflexivity.
    + change (S (length (sleep_calls rest)) + ready_count out
              = S (length (probe_calls rest)))%nat.
      lia.
  - change (ENow tn :: EPing (base +:+ "/api/tags") None
              :: trace_of (ensureAll B base reqTimeout required) w2)
      with ([ENow tn; EPing (base +:+ "/api/tags") None]
              ++ trace_of (ensureAll B base reqTimeout required) w2).
    rewrite !sleep_calls_app, !probe_calls_app.
    rewrite sleep_calls_ensureAll, (probe_calls_ensureAll B). split; reflexivity.
Qed.

(** X18.  The backoff is constant: every pause of [waitUntilReady] is
    exactly two seconds long, and there is one pause for each probe of the
    run, the successful probe of the iteration that returns [nil] apart.
    So a failed probe and a failed ensure attempt cost the same pause, and
    no iteration probes twice. *)
Theorem waitUntilReady_pauses fuel base reqTimeout startupLimit required w :
  sleep_calls (trace_of (waitUntilReady B fuel base reqTimeout startupLimit required) w)
  = replicate
      (length (sleep_calls
                 (trace_of (waitUntilReady B fuel base reqTimeout startupLimit required) w)))
      (2 * second) /\
  (length (sleep_calls
             (trace_of (waitUntilReady B fuel base reqTimeout startupLimit required) w))
   + ready_count (result_of (waitUntilReady B fuel base reqTimeout startupLimit required) w)
   = length (probe_calls
               (trace_of (waitUntilReady B fuel base reqTimeout startupLimit required) w)))%nat.
Proof.
  pose proof (retryLoop_run B fuel base reqTimeout required
                ((time_Now B w).1 + startupLimit) None (time_Now B w).2) as Hrun.
  apply loop_run_pauses in Hrun as [H1 H2].
  unfold waitUntilReady. rewrite trace_of_bind, result_of_bind.
  destruct (now_run B w) as [Hr [Hw Ht]]. rewrite Hr, Hw, Ht.
  rewrite sleep_calls_app, probe_calls_app. split; [exact H1|exact H2].
Qed.

End Pauses.
